(** * The mock profile service of [mock-server/server.js]

    A shallow embedding of the two Express route handlers
    ([GET /api/users/:userId] and [PUT /api/users/:userId]) and of the
    JavaScript operations they are built from: property reads and writes
    on the module-level [users] object (with its prototype chain), the
    truthiness test [!x], the operator [||], object spread, conversion to
    text and [RegExp.prototype.test]. *)

From Stdlib Require Import Ascii String NArith.
From stdpp Require Import gmap list.

Local Open Scope N_scope.
Set Warnings "-register-all,-clear-no-such-hyp".

(** ** Strings

    A JavaScript string is a sequence of UTF-16 code units. *)

Abbreviation code_unit := N (only parsing).
Abbreviation jsstring := (list N) (only parsing).

(** A string literal of the source, as code units (the literals of
    [server.js] are all ASCII). *)
Definition js (s : string) : jsstring :=
  map N_of_ascii (list_ascii_of_string s).

Definition at_sign : code_unit := 64.
Definition full_stop : code_unit := 46.
Definition comma : code_unit := 44.

(** Decimal digits, most significant first; a number has no more
    decimal digits than binary ones, which bounds the recursion. *)
Fixpoint digits_fuel (fuel : nat) (n : N) (acc : jsstring) : jsstring :=
  match fuel with
  | O => acc
  | S fuel' =>
      let acc' := (48 + n mod 10) :: acc in
      if n <? 10 then acc' else digits_fuel fuel' (n / 10) acc'
  end.

Definition digits (n : N) : jsstring :=
  digits_fuel (S (N.size_nat n)) n [].

(** The property keys ["0"], ["1"], ... of the elements of arrays and of
    the code units of strings. *)
Definition index_key (i : nat) : jsstring :=
  digits (N.of_nat i).

(** ** Regular expressions

    [/^[^\s@]+@[^\s@]+\.[^\s@]+$/] has no flags; the anchors [^] and [$]
    make [test] succeed exactly when the whole input belongs to the
    language of the pattern between them. *)

Inductive regex : Type :=
| Void
| Eps
| Class (p : code_unit → bool)
| Seq (r1 r2 : regex)
| Alt (r1 r2 : regex)
| Star (r : regex).

(** [r+] *)
Definition Plus (r : regex) : regex := Seq r (Star r).

(** A literal character, [c] or [\c]. *)
Definition Chr (c : code_unit) : regex := Class (N.eqb c).

(** The code units matched by [\s]: WhiteSpace and LineTerminator of
    ECMA-262. *)
Definition is_space (c : code_unit) : bool :=
  (9 <=? c) && (c <=? 13)
  || (c =? 32) || (c =? 0xa0) || (c =? 0x1680)
  || (0x2000 <=? c) && (c <=? 0x200a)
  || (c =? 0x2028) || (c =? 0x2029) || (c =? 0x202f) || (c =? 0x205f)
  || (c =? 0x3000) || (c =? 0xfeff).

(** [[^\s@]] *)
Definition not_space_at (c : code_unit) : bool :=
  negb (is_space c || (c =? at_sign)).

Definition emailRegex : regex :=
  Seq (Plus (Class not_space_at))
    (Seq (Chr at_sign)
       (Seq (Plus (Class not_space_at))
          (Seq (Chr full_stop)
             (Plus (Class not_space_at))))).

Fixpoint nullable (r : regex) : bool :=
  match r with
  | Void => false
  | Eps => true
  | Class _ => false
  | Seq r1 r2 => nullable r1 && nullable r2
  | Alt r1 r2 => nullable r1 || nullable r2
  | Star _ => true
  end.

Fixpoint deriv (c : code_unit) (r : regex) : regex :=
  match r with
  | Void => Void
  | Eps => Void
  | Class p => if p c then Eps else Void
  | Seq r1 r2 =>
      if nullable r1
      then Alt (Seq (deriv c r1) r2) (deriv c r2)
      else Seq (deriv c r1) r2
  | Alt r1 r2 => Alt (deriv c r1) (deriv c r2)
  | Star r1 => Seq (deriv c r1) (Star r1)
  end.

(** Whole-input match. *)
Fixpoint matches (r : regex) (s : jsstring) : bool :=
  match s with
  | [] => nullable r
  | c :: s' => matches (deriv c r) s'
  end.

(** The language of a pattern, as a relation. *)
Inductive lang : regex → jsstring → Prop :=
| lang_eps : lang Eps []
| lang_class p c : p c = true → lang (Class p) [c]
| lang_seq r1 r2 s1 s2 : lang r1 s1 → lang r2 s2 → lang (Seq r1 r2) (s1 ++ s2)
| lang_alt_l r1 r2 s : lang r1 s → lang (Alt r1 r2) s
| lang_alt_r r1 r2 s : lang r2 s → lang (Alt r1 r2) s
| lang_star_nil r : lang (Star r) []
| lang_star_cons r c s1 s2 :
    lang r (c :: s1) → lang (Star r) s2 → lang (Star r) (c :: s1 ++ s2).

(** The shape the specification names, [local-part@domain.tld]: three
    non-empty parts free of white space and of [@], separated by one [@]
    and one full stop. *)
Definition email_part (p : jsstring) : Prop :=
  p ≠ [] ∧ Forall (λ c, not_space_at c = true) p.

Definition email_shape (s : jsstring) : Prop :=
  ∃ local domain tld : jsstring,
    s = local ++ at_sign :: domain ++ full_stop :: tld
    ∧ email_part local ∧ email_part domain ∧ email_part tld.

(** ** Completions

    A statement either completes normally or throws; [TypeError] is the
    only exception the handlers can meet. *)

Inductive exception : Type := TypeError.

Inductive completion (A : Type) : Type :=
| Normal (a : A)
| Throw (e : exception).
Arguments Normal {A} a.
Arguments Throw {A} e.

Definition bind {A B : Type} (c : completion A) (k : A → completion B)
  : completion B :=
  match c with
  | Normal a => k a
  | Throw e => Throw e
  end.

Notation "x <- c ;; k" := (bind c (λ x, k))
  (at level 100, c at next level, right associativity).

(** ** Values

    The handlers never do arithmetic: of a number they observe only its
    truthiness ([!x], [x || y]) and its text (inside [test]).  Numbers are
    therefore an interface with these two observations. *)

Class NumberOps (number : Type) : Type := {
  (** [true] for the numbers that [ToBoolean] sends to [false]: +0, -0
      and NaN. *)
  Number_falsy : number → bool;
  (** [Number::toString]. *)
  Number_toString : number → jsstring;
}.

(** The decimal notation of an integer. *)
Definition Z_toString (z : Z) : jsstring :=
  match z with
  | Z0 => js "0"
  | Zpos p => digits (Npos p)
  | Zneg p => 45 :: digits (Npos p)
  end.

(** The safe integers, below 2^53 in absolute value: each is a number
    of JavaScript, and [Number::toString] writes it in plain decimal
    notation (the exponent form starts at 10^21).  The examples are run
    on this instance. *)
Record safe_integer : Type := {
  the_integer : Z;
  is_safe : (Z.abs the_integer <? 2 ^ 53)%Z = true;
}.

#[export] Instance safe_integer_NumberOps : NumberOps safe_integer := {|
  Number_falsy := λ n, Z.eqb 0 (the_integer n);
  Number_toString := λ n, Z_toString (the_integer n);
|}.

Section Server.

Context {number : Type} `{NumberOps number}.

(** Data values: what [JSON.parse] produces, what the records of [users]
    hold, and [undefined].  The property list of an object is in the
    order of its own keys. *)
Inductive value : Type :=
| VUndefined
| VNull
| VBool (b : bool)
| VNumber (n : number)
| VString (s : jsstring)
| VArray (elements : list value)
| VObject (properties : list (jsstring * value)).

Abbreviation object := (list (jsstring * value)) (only parsing).

(** What a read of [users[userId]] can produce: a data value, or one of
    the objects that every object inherits from. *)
Inductive jsval : Type :=
| Data (v : value)
| ObjectPrototype                 (* %Object.prototype% *)
| Builtin (name : jsstring).      (* a built-in function, by its [name] *)

(** [ToBoolean] *)
Definition ToBoolean (v : value) : bool :=
  match v with
  | VUndefined | VNull => false
  | VBool b => b
  | VNumber n => negb (Number_falsy n)
  | VString s => negb (bool_decide (s = []))
  | VArray _ | VObject _ => true
  end.

Definition truthy (x : jsval) : bool :=
  match x with
  | Data v => ToBoolean v
  | ObjectPrototype | Builtin _ => true
  end.

(** [a || b] *)
Definition or_else (a b : value) : value :=
  if ToBoolean a then a else b.

(** Own property read on a property list. *)
Fixpoint get_own (k : jsstring) (o : object) : option value :=
  match o with
  | [] => None
  | (k', v) :: o' => if bool_decide (k' = k) then Some v else get_own k o'
  end.

(** [CreateDataProperty]: overwrite in place, or append a new key. *)
Fixpoint define (k : jsstring) (v : value) (o : object) : object :=
  match o with
  | [] => [(k, v)]
  | (k', v') :: o' =>
      if bool_decide (k' = k) then (k, v) :: o' else (k', v') :: define k v o'
  end.

(** [ToString].  An array is joined with commas, [undefined] and [null]
    elements giving the empty text.  A plain object whose own [toString]
    entry shadows [Object.prototype.toString] has no callable conversion
    ([valueOf] returns the object itself): [TypeError]. *)
Fixpoint ToString (v : value) : completion jsstring :=
  match v with
  | VUndefined => Normal (js "undefined")
  | VNull => Normal (js "null")
  | VBool true => Normal (js "true")
  | VBool false => Normal (js "false")
  | VNumber n => Normal (Number_toString n)
  | VString s => Normal s
  | VArray elements =>
      let element (x : value) : completion jsstring :=
        match x with
        | VUndefined | VNull => Normal []
        | _ => ToString x
        end in
      (fix join (l : list value) : completion jsstring :=
         match l with
         | [] => Normal []
         | [x] => element x
         | x :: l' =>
             s <- element x ;;
             rest <- join l' ;;
             Normal (s ++ comma :: rest)
         end) elements
  | VObject properties =>
      match get_own (js "toString") properties with
      | Some _ => Throw TypeError
      | None => Normal (js "[object Object]")
      end
  end.

(** [regex.test(v)] *)
Definition RegExp_test (r : regex) (v : value) : completion bool :=
  s <- ToString v ;;
  Normal (matches r s).

(** ** Object literals and spread *)

(** The own enumerable properties that [{...x}] copies: the entries of a
    plain object, the indexed elements of an array, the indexed code
    units of a string; nothing for the other primitives, for functions
    and for [Object.prototype], whose own properties are not enumerable. *)
Definition own_enumerable (x : jsval) : object :=
  match x with
  | Data (VObject properties) => properties
  | Data (VArray elements) => imap (λ i v, (index_key i, v)) elements
  | Data (VString s) => imap (λ i c, (index_key i, VString [c])) s
  | Data (VUndefined | VNull | VBool _ | VNumber _) => []
  | ObjectPrototype | Builtin _ => []
  end.

Inductive member : Type :=
| Spread (x : jsval)                  (* [...x] *)
| Field (k : jsstring) (v : value).   (* [k: v] *)

Definition add_member (o : object) (m : member) : object :=
  match m with
  | Spread x => fold_left (λ o' kv, define kv.1 kv.2 o') (own_enumerable x) o
  | Field k v => define k v o
  end.

(** [{ m1, m2, ... }], evaluated left to right. *)
Definition object_literal (members : list member) : object :=
  fold_left add_member members [].

(** ** The [users] object

    [users] is an ordinary object used as a map: its own properties are
    the records, and reads and writes go through its prototype chain.
    [users] starts with [Object.prototype] as its prototype; a write to
    [users['__proto__']] replaces it by a record, itself an object
    literal that inherits from [Object.prototype]. *)
Record store : Type := {
  own : gmap jsstring object;   (* own properties: key to record *)
  proto : option object;        (* [None]: %Object.prototype%; [Some r]: the record [r] *)
}.

(** The data properties of [Object.prototype], all built-in functions,
    by key and function name. *)
Definition Object_prototype_functions : list (jsstring * jsstring) :=
  [ (js "constructor", js "Object");
    (js "__defineGetter__", js "__defineGetter__");
    (js "__defineSetter__", js "__defineSetter__");
    (js "hasOwnProperty", js "hasOwnProperty");
    (js "__lookupGetter__", js "__lookupGetter__");
    (js "__lookupSetter__", js "__lookupSetter__");
    (js "isPrototypeOf", js "isPrototypeOf");
    (js "propertyIsEnumerable", js "propertyIsEnumerable");
    (js "toString", js "toString");
    (js "valueOf", js "valueOf");
    (js "toLocaleString", js "toLocaleString") ].

(** Its one accessor property. *)
Definition proto_key : jsstring := js "__proto__".

Fixpoint assoc (k : jsstring) (l : list (jsstring * jsstring)) : option jsstring :=
  match l with
  | [] => None
  | (k', x) :: l' => if bool_decide (k' = k) then Some x else assoc k l'
  end.

(** A read that reaches [Object.prototype]: the getter of [__proto__]
    returns the prototype of the receiver, [users]. *)
Definition Object_prototype_get (users : store) (k : jsstring) : jsval :=
  if bool_decide (k = proto_key) then
    match proto users with
    | None => ObjectPrototype
    | Some r => Data (VObject r)
    end
  else
    match assoc k Object_prototype_functions with
    | Some name => Builtin name
    | None => Data VUndefined
    end.

(** [users[k]] *)
Definition users_get (users : store) (k : jsstring) : jsval :=
  match own users !! k with
  | Some record => Data (VObject record)
  | None =>
      match proto users with
      | Some r =>
          match get_own k r with
          | Some v => Data v
          | None => Object_prototype_get users k
          end
      | None => Object_prototype_get users k
      end
  end.

(** Whether the chain above [users] holds [k] as a data property. *)
Definition inherited_data (users : store) (k : jsstring) : bool :=
  match proto users with
  | Some r => bool_decide (is_Some (get_own k r))
  | None => false
  end
  || bool_decide (is_Some (assoc k Object_prototype_functions)).

(** [users[k] = record], for a [record] made by an object literal.  An
    own property is overwritten; a key found as a (writable) data
    property up the chain, or found nowhere, becomes a new own property;
    a key that reaches the [__proto__] accessor calls its setter, which
    makes [record] the prototype of [users]. *)
Definition users_set (users : store) (k : jsstring) (record : object) : store :=
  match own users !! k with
  | Some _ => {| own := <[k := record]> (own users); proto := proto users |}
  | None =>
      if inherited_data users k then
        {| own := <[k := record]> (own users); proto := proto users |}
      else if bool_decide (k = proto_key) then
        {| own := own users; proto := Some record |}
      else
        {| own := <[k := record]> (own users); proto := proto users |}
  end.

(** The in-memory database at start-up. *)
Definition users_init : store := {|
  own := list_to_map
    [ (js "1",
        [ (js "id", VString (js "1"));
          (js "email", VString (js "john.doe@example.com"));
          (js "firstName", VString (js "John"));
          (js "lastName", VString (js "Doe"));
          (js "phoneNumber", VString (js "+1-555-123-4567"));
          (js "bio", VString (js "Software engineer passionate about building great user experiences.")) ]);
      (js "2",
        [ (js "id", VString (js "2"));
          (js "email", VString (js "jane.smith@example.com"));
          (js "firstName", VString (js "Jane"));
          (js "lastName", VString (js "Smith"));
          (js "phoneNumber", VNull);
          (js "bio", VString (js "Product designer who loves creating intuitive interfaces.")) ]);
      (js "3",
        [ (js "id", VString (js "3"));
          (js "email", VString (js "bob.wilson@example.com"));
          (js "firstName", VString (js "Bob"));
          (js "lastName", VString (js "Wilson"));
          (js "phoneNumber", VString (js "+1-555-987-6543"));
          (js "bio", VNull) ]) ];
  proto := None;
|}.

(** ** Requests and responses *)

Record response : Type := {
  status : N;
  body : jsval;    (* the argument of [res.json] *)
}.

(** [res.status(code).json({ message: text })] *)
Definition res_status_json_message (code : N) (text : jsstring) : response :=
  {| status := code; body := Data (VObject [(js "message", VString text)]) |}.

(** [res.json(x)], with the default status. *)
Definition res_json (x : jsval) : response :=
  {| status := 200; body := x |}.

(** A property read on [req.body] for a key that no prototype defines,
    as in [const { email, ... } = req.body]: reading from [undefined] or
    [null] throws; an object gives its own entry; arrays and primitives
    have no such property. *)
Definition GetV (b : value) (k : jsstring) : completion value :=
  match b with
  | VUndefined | VNull => Throw TypeError
  | VObject properties => Normal (default VUndefined (get_own k properties))
  | VBool _ | VNumber _ | VString _ | VArray _ => Normal VUndefined
  end.

(** [try { ... } catch (error) { res.status(500).json(...) }].  In both
    handlers every statement that can throw comes before the write to
    [users], so the catch block sees the [users] of the request's start. *)
Definition try_catch (users : store) (block : completion (store * response))
  : store * response :=
  match block with
  | Normal r => r
  | Throw _ => (users, res_status_json_message 500 (js "Internal server error"))
  end.

(** [`User with ID ${userId} not found`] *)
Definition not_found_message (userId : jsstring) : jsstring :=
  js "User with ID " ++ userId ++ js " not found".

(** [app.get('/api/users/:userId', ...)], from the end of [await delay(500)]. *)
Definition app_get (users : store) (userId : jsstring) : store * response :=
  try_catch users (
    let user := users_get users userId in
    if negb (truthy user) then
      Normal (users, res_status_json_message 404 (not_found_message userId))
    else
      Normal (users, res_json user)).

(** [app.put('/api/users/:userId', ...)], from the end of [await delay(800)]. *)
Definition app_put (users : store) (userId : jsstring) (req_body : value)
  : store * response :=
  try_catch users (
    let user := users_get users userId in
    if negb (truthy user) then
      Normal (users, res_status_json_message 404 (not_found_message userId))
    else
      email <- GetV req_body (js "email") ;;
      firstName <- GetV req_body (js "firstName") ;;
      lastName <- GetV req_body (js "lastName") ;;
      phoneNumber <- GetV req_body (js "phoneNumber") ;;
      bio <- GetV req_body (js "bio") ;;
      if negb (ToBoolean email) || negb (ToBoolean firstName)
         || negb (ToBoolean lastName) then
        Normal (users, res_status_json_message 400
                  (js "Email, firstName, and lastName are required fields"))
      else
        valid <- RegExp_test emailRegex email ;;
        if negb valid then
          Normal (users, res_status_json_message 400 (js "Invalid email format"))
        else
          let users' :=
            users_set users userId
              (object_literal
                 [ Spread user;
                   Field (js "email") email;
                   Field (js "firstName") firstName;
                   Field (js "lastName") lastName;
                   Field (js "phoneNumber") (or_else phoneNumber VNull);
                   Field (js "bio") (or_else bio VNull) ]) in
          Normal (users', res_json (users_get users' userId))).

(** ** Vocabulary of the statements *)

(** An identifier is known when [users] holds a record under it. *)
Definition known (users : store) (userId : jsstring) : Prop :=
  is_Some (own users !! userId).

(** [undefined] and [null], the values without properties. *)
Definition nullish (v : value) : bool :=
  match v with
  | VUndefined | VNull => true
  | _ => false
  end.

(** The value the handler binds to a field of the payload. *)
Definition submitted (req_body : value) (k : jsstring) : value :=
  match GetV req_body k with
  | Normal v => v
  | Throw _ => VUndefined
  end.

(** A payload passes validation when its three required fields are
    truthy and [emailRegex.test(email)] returns [true]. *)
Definition passes_validation (req_body : value) : Prop :=
  nullish req_body = false
  ∧ ToBoolean (submitted req_body (js "email")) = true
  ∧ ToBoolean (submitted req_body (js "firstName")) = true
  ∧ ToBoolean (submitted req_body (js "lastName")) = true
  ∧ RegExp_test emailRegex (submitted req_body (js "email")) = Normal true.

(** The record an update makes of [user] and a payload. *)
Definition merged (user : jsval) (req_body : value) : object :=
  object_literal
    [ Spread user;
      Field (js "email") (submitted req_body (js "email"));
      Field (js "firstName") (submitted req_body (js "firstName"));
      Field (js "lastName") (submitted req_body (js "lastName"));
      Field (js "phoneNumber") (or_else (submitted req_body (js "phoneNumber")) VNull);
      Field (js "bio") (or_else (submitted req_body (js "bio")) VNull) ].

(** The five keys an update writes. *)
Definition payload_keys : list jsstring :=
  [js "email"; js "firstName"; js "lastName"; js "phoneNumber"; js "bio"].

(** An object has each key once. *)
Definition wf_object (o : object) : Prop := NoDup o.*1.

Definition wf_store (users : store) : Prop :=
  (∀ k r, own users !! k = Some r → wf_object r)
  ∧ (∀ r, proto users = Some r → wf_object r).

(** ** Requests in flight

    Each handler awaits its timer once, at its first statement, and has
    no other [await]: when the timer fires the rest of the handler runs
    to completion before any other callback.  A server state is the
    [users] object, the requests suspended at their [await], and the
    responses sent so far; a step resumes any one suspended request. *)

Inductive request : Type :=
| GET (userId : jsstring)
| PUT (userId : jsstring) (req_body : value).

Definition handle (users : store) (req : request) : store * response :=
  match req with
  | GET userId => app_get users userId
  | PUT userId req_body => app_put users userId req_body
  end.

Record server : Type := {
  db : store;
  in_flight : list request;
  sent : list (request * response);
}.

Inductive step : server → server → Prop :=
| step_resume (srv : server) (i : nat) (req : request) :
    in_flight srv !! i = Some req →
    step srv
      {| db := (handle (db srv) req).1;
         in_flight := delete i (in_flight srv);
         sent := sent srv ++ [(req, (handle (db srv) req).2)] |}.

(** The states a server started on [users_init] can reach by serving
    requests. *)
Inductive reachable : store → Prop :=
| reachable_init : reachable users_init
| reachable_handle users req :
    reachable users → reachable (handle users req).1.

End Server.

(** ** The callers: the requests the two forms send

    [TraditionalForm] and [ModernForm] are the callers of the update
    route.  Of each, the part that decides whether a request is sent and
    builds its data is embedded; the data reaches the handler as
    [req.body]. *)

(** [String.prototype.trim]: the white space it strips is the set that
    [\s] matches. *)
Fixpoint trim_start (s : jsstring) : jsstring :=
  match s with
  | [] => []
  | c :: s' => if is_space c then trim_start s' else s
  end.

Definition trim_end (s : jsstring) : jsstring :=
  reverse (trim_start (reverse s)).

Definition trim (s : jsstring) : jsstring :=
  trim_end (trim_start s).

Section Forms.

Context {number : Type} `{NumberOps number}.

(** [x.trim()]: strings have the method; on [undefined] and [null] the
    property read throws, on every other value [x.trim] is [undefined]
    and the call throws. *)
Definition call_trim (x : @value number) : completion (@value number) :=
  match x with
  | VString s => Normal (VString (trim s))
  | _ => Throw TypeError
  end.

(** What a submit handler does with the form: it sends nothing and
    shows an error, or it sends a request with some data. *)
Inductive submission : Type :=
| NotSent (saveError : jsstring)
| Sent (data : @value number).

(** The five field variables of [TraditionalForm]. *)
Record fields : Type := {
  f_firstName : @value number;
  f_lastName : @value number;
  f_email : @value number;
  f_phoneNumber : @value number;
  f_bio : @value number;
}.

(** [handleSubmit] of [TraditionalForm], up to its [await]: the manual
    validation (outside the [try], so a throw there escapes), then,
    inside the [try], the [updateData] literal, whose throws are caught
    and reported with the fallback message, the error having no
    [response]. *)
Definition TraditionalForm_handleSubmit (st : fields) : completion submission :=
  let required :=
    NotSent (js "First name, last name, and email are required") in
  firstName <- call_trim (f_firstName st) ;;
  if negb (ToBoolean firstName) then Normal required else
  lastName <- call_trim (f_lastName st) ;;
  if negb (ToBoolean lastName) then Normal required else
  email <- call_trim (f_email st) ;;
  if negb (ToBoolean email) then Normal required else
  match
    (firstName <- call_trim (f_firstName st) ;;
     lastName <- call_trim (f_lastName st) ;;
     email <- call_trim (f_email st) ;;
     phoneNumber <- call_trim (f_phoneNumber st) ;;
     bio <- call_trim (f_bio st) ;;
     Normal (VObject (object_literal
               [ Field (js "firstName") firstName;
                 Field (js "lastName") lastName;
                 Field (js "email") email;
                 Field (js "phoneNumber") (or_else phoneNumber VNull);
                 Field (js "bio") (or_else bio VNull) ])))
  with
  | Normal updateData => Normal (Sent updateData)
  | Throw _ => Normal (NotSent (js "Failed to update profile"))
  end.

(** [onSubmit] of [ModernForm]: the data of the mutation,
    [{ ...data, phoneNumber: data.phoneNumber || null, bio: data.bio || null }]. *)
Definition ModernForm_onSubmit (data : @value number)
  : completion (@value number) :=
  phoneNumber <- GetV data (js "phoneNumber") ;;
  bio <- GetV data (js "bio") ;;
  Normal (VObject (object_literal
            [ Spread (Data data);
              Field (js "phoneNumber") (or_else phoneNumber VNull);
              Field (js "bio") (or_else bio VNull) ])).

(** A run of the server on requests resumed one after the other. *)
Definition serve (users : @store number) (reqs : list (@request number))
  : @store number :=
  fold_left (λ u req, (handle u req).1) reqs users.

(** A text without a character other than white space. *)
Definition blank (s : jsstring) : Prop := Forall (λ c, is_space c = true) s.

(** The invariant of the records: what validation has let through. *)
Definition validated (r : list (jsstring * @value number)) : Prop :=
  (∃ email, get_own (js "email") r = Some email
            ∧ ToBoolean email = true
            ∧ RegExp_test emailRegex email = Normal true)
  ∧ (∃ v, get_own (js "firstName") r = Some v ∧ ToBoolean v = true)
  ∧ (∃ v, get_own (js "lastName") r = Some v ∧ ToBoolean v = true)
  ∧ (∃ v, get_own (js "phoneNumber") r = Some v
          ∧ (v = VNull ∨ ToBoolean v = true))
  ∧ (∃ v, get_own (js "bio") r = Some v ∧ (v = VNull ∨ ToBoolean v = true)).

(** The data [handleSubmit] of [TraditionalForm] sends for five texts
    typed into the form, as the statements below name it. *)
Definition updateData_of (firstName lastName email phoneNumber bio : jsstring)
  : @value number :=
  VObject
    [ (js "firstName", VString (trim firstName));
      (js "lastName", VString (trim lastName));
      (js "email", VString (trim email));
      (js "phoneNumber", or_else (VString (trim phoneNumber)) VNull);
      (js "bio", or_else (VString (trim bio)) VNull) ].

(** The identifier an update request is addressed to. *)
Definition put_target (req : @request number) : option jsstring :=
  match req with
  | PUT userId _ => Some userId
  | GET _ => None
  end.

(** Requests whose updates are addressed to pairwise different
    identifiers, all of them known. *)
Definition independent (users : @store number) (reqs : list (@request number))
  : Prop :=
  NoDup (omap put_target reqs)
  ∧ ∀ userId, userId ∈ omap put_target reqs → known users userId.

(** The server after the request at position [i] has been resumed. *)
Definition resume (srv : @server number) (i : nat) (req : @request number)
  : @server number :=
  {| db := (handle (db srv) req).1;
     in_flight := delete i (in_flight srv);
     sent := sent srv ++ [(req, (handle (db srv) req).2)] |}.

End Forms.

(** ** Sample requests

    Payloads as [express.json()] hands them to the update handler, over
    the safe integers. *)

(** [{ "email": "jane@new.example.org", "firstName": "Janet", "lastName": "Smythe" }] *)
Definition payload_valid : @value safe_integer :=
  VObject
    [ (js "email", VString (js "jane@new.example.org"));
      (js "firstName", VString (js "Janet"));
      (js "lastName", VString (js "Smythe")) ].

(** [{ "id": "999", "email": "bob@new.example.org", "firstName": "Rob",
       "lastName": "Wilson", "phoneNumber": "", "bio": "Hello" }] *)
Definition payload_with_id : @value safe_integer :=
  VObject
    [ (js "id", VString (js "999"));
      (js "email", VString (js "bob@new.example.org"));
      (js "firstName", VString (js "Rob"));
      (js "lastName", VString (js "Wilson"));
      (js "phoneNumber", VString []);
      (js "bio", VString (js "Hello")) ].

(** [{ "firstName": "Janet", "lastName": "Smythe" }] *)
Definition payload_no_email : @value safe_integer :=
  VObject
    [ (js "firstName", VString (js "Janet"));
      (js "lastName", VString (js "Smythe")) ].

(** [{ "email": "not-an-email", "firstName": "Janet", "lastName": "Smythe" }] *)
Definition payload_bad_email : @value safe_integer :=
  VObject
    [ (js "email", VString (js "not-an-email"));
      (js "firstName", VString (js "Janet"));
      (js "lastName", VString (js "Smythe")) ].

(** [{ "email": { "toString": 1 }, "firstName": "Janet", "lastName": "Smythe" }] *)
Definition payload_unconvertible_email : @value safe_integer :=
  VObject
    [ (js "email", VObject [(js "toString", VNumber {| the_integer := 1; is_safe := eq_refl |})]);
      (js "firstName", VString (js "Janet"));
      (js "lastName", VString (js "Smythe")) ].

(** [{ "email": ["a@b", "c.d"], "firstName": "Janet", "lastName": "Smythe" }] *)
Definition payload_array_email : @value safe_integer :=
  VObject
    [ (js "email", VArray [VString (js "a@b"); VString (js "c.d")]);
      (js "firstName", VString (js "Janet"));
      (js "lastName", VString (js "Smythe")) ].

(** [{ "email": {}, "firstName": "Janet", "lastName": "Smythe" }] *)
Definition payload_object_email : @value safe_integer :=
  VObject
    [ (js "email", VObject []);
      (js "firstName", VString (js "Janet"));
      (js "lastName", VString (js "Smythe")) ].

(** [{}] *)
Definition payload_empty : @value safe_integer := VObject [].




(** [{ "email": null, "firstName": "Janet", "lastName": "Smythe" }] *)
Definition payload_null_email : @value safe_integer :=
  VObject
    [ (js "email", VNull);
      (js "firstName", VString (js "Janet"));
      (js "lastName", VString (js "Smythe")) ].

(** Two fetches in flight on the start-up store, and the server after
    the second has been resumed. *)
Definition fetches_in_flight : @server safe_integer :=
  {| db := users_init;
     in_flight := [GET (js "1"); GET (js "4")];
     sent := [] |}.

Definition fetch_resumed : @server safe_integer :=
  {| db := (handle (db fetches_in_flight) (GET (js "4"))).1;
     in_flight := delete 1%nat (in_flight fetches_in_flight);
     sent := sent fetches_in_flight
             ++ [(GET (js "4"), (handle (db fetches_in_flight) (GET (js "4"))).2)] |}.

(** Updates of users 1 and 2 in flight on the start-up store. *)
Definition updates_in_flight : @server safe_integer :=
  {| db := users_init;
     in_flight := [PUT (js "1") payload_with_id; PUT (js "2") payload_valid];
     sent := [] |}.

(** Texts typed into [TraditionalForm], with surrounding blanks and a
    blank phone number, and the values of [ModernForm] for the same
    names, email and phone number. *)
Definition typed_firstName : jsstring := js " Ada ".
Definition typed_lastName : jsstring := js "Lovelace".
Definition typed_email : jsstring := js " ada@example.org ".
Definition typed_phoneNumber : jsstring := js "   ".
Definition typed_bio : jsstring := js " Countess ".

Definition modern_values : list (jsstring * @value safe_integer) :=
  [ (js "firstName", VString (js "Ada"));
    (js "lastName", VString (js "Lovelace"));
    (js "email", VString (js "ada@example.org"));
    (js "phoneNumber", VString (js "   "));
    (js "bio", VString []) ].

(** * Properties *)

(** ** The pattern matcher decides the language of the pattern *)

Lemma nullable_lang (r : regex) : nullable r = true ↔ lang r [].
Proof.
  split.
  - induction r as [| |p|r1 IH1 r2 IH2|r1 IH1 r2 IH2|r IH]; simpl; intros Hn;
      try discriminate.
    + constructor.
    + apply andb_true_iff in Hn as [H1 H2].
      apply (lang_seq r1 r2 [] []); auto.
    + apply orb_true_iff in Hn as [H1|H2];
        [apply lang_alt_l | apply lang_alt_r]; auto.
    + constructor.
  - intros Hl. remember [] as s eqn:Es.
    induction Hl as [|p c Hp|r1 r2 s1 s2 H1 IH1 H2 IH2|r1 r2 s H1 IH1
                    |r1 r2 s H2 IH2|r|r c s1 s2 H1 IH1 H2 IH2];
      simpl; try discriminate; auto.
    + apply app_eq_nil in Es as [-> ->]. rewrite IH1, IH2; auto.
    + rewrite IH1; auto.
    + rewrite IH2; auto. apply orb_true_r.
Qed.

Lemma lang_seq_inv (r1 r2 : regex) (s : jsstring) :
  lang (Seq r1 r2) s → ∃ s1 s2, s = s1 ++ s2 ∧ lang r1 s1 ∧ lang r2 s2.
Proof. inversion 1; subst; eauto. Qed.

Lemma lang_alt_inv (r1 r2 : regex) (s : jsstring) :
  lang (Alt r1 r2) s → lang r1 s ∨ lang r2 s.
Proof. inversion 1; subst; auto. Qed.

Lemma lang_class_inv (p : N → bool) (s : jsstring) :
  lang (Class p) s → ∃ c, s = [c] ∧ p c = true.
Proof. inversion 1; subst; eauto. Qed.

Lemma lang_star_inv (r : regex) (s : jsstring) :
  lang (Star r) s →
  s = [] ∨ ∃ c s1 s2, s = c :: s1 ++ s2 ∧ lang r (c :: s1) ∧ lang (Star r) s2.
Proof. inversion 1; subst; eauto 10. Qed.

Lemma deriv_lang (c : N) (r : regex) (s : jsstring) :
  lang (deriv c r) s ↔ lang r (c :: s).
Proof.
  revert s.
  induction r as [| |p|r1 IH1 r2 IH2|r1 IH1 r2 IH2|r IH]; intros s; simpl.
  - split; inversion 1.
  - split; inversion 1.
  - destruct (p c) eqn:Hp; split; intros Hl.
    + inversion Hl; subst. by constructor.
    + apply lang_class_inv in Hl as (c' & Heq & _).
      injection Heq as ? ?; subst. constructor.
    + inversion Hl.
    + apply lang_class_inv in Hl as (c' & Heq & Hp').
      injection Heq as ? ?; subst. congruence.
  - assert (Hseq : lang (Seq (deriv c r1) r2) s →  lang (Seq r1 r2) (c :: s)).
    { intros (s1 & s2 & -> & H1 & H2)%lang_seq_inv.
      apply IH1 in H1. by apply (lang_seq r1 r2 (c :: s1) s2). }
    assert (Hinv : lang (Seq r1 r2) (c :: s) →
                   lang (Seq (deriv c r1) r2) s
                   ∨ (lang r1 [] ∧ lang (deriv c r2) s)).
    { intros (s1 & s2 & Es & H1 & H2)%lang_seq_inv.
      destruct s1 as [|c' s1]; simpl in Es.
      - subst s2. right. split; [done | by apply IH2].
      - injection Es as <- ->. left. constructor; [by apply IH1 | done]. }
    destruct (nullable r1) eqn:Hn; split.
    + intros [H1|H2]%lang_alt_inv; [auto |].
      apply IH2 in H2. apply nullable_lang in Hn.
      by apply (lang_seq r1 r2 [] (c :: s)).
    + intros [H1|[_ H2]]%Hinv; [by apply lang_alt_l | by apply lang_alt_r].
    + done.
    + intros [H1|[H1 _]]%Hinv; [done |].
      apply nullable_lang in H1. congruence.
  - split.
    + intros [H1|H2]%lang_alt_inv;
        [apply lang_alt_l, IH1 | apply lang_alt_r, IH2]; done.
    + intros [H1|H2]%lang_alt_inv;
        [apply lang_alt_l, IH1 | apply lang_alt_r, IH2]; done.
  - split.
    + intros (s1 & s2 & -> & H1 & H2)%lang_seq_inv.
      apply IH in H1. by constructor.
    + intros [[=]|(c' & s1 & s2 & [= <- ->] & H1 & H2)]%lang_star_inv.
      constructor; [by apply IH | done].
Qed.

Lemma matches_lang (r : regex) (s : jsstring) : matches r s = true ↔ lang r s.
Proof.
  revert r. induction s as [|c s IH]; intros r; simpl.
  - apply nullable_lang.
  - rewrite IH. apply deriv_lang.
Qed.

Lemma lang_star_class (p : N → bool) (s : jsstring) :
  lang (Star (Class p)) s ↔ Forall (λ c, p c = true) s.
Proof.
  split.
  - intros Hl. remember (Star (Class p)) as r eqn:Er.
    induction Hl as [| | | | |r|r c s1 s2 H1 _ H2 IH2]; try discriminate.
    + constructor.
    + injection Er as ->.
      apply lang_class_inv in H1 as (c' & Heq & Hp).
      injection Heq as ? ?; subst. constructor; auto.
  - induction 1 as [|c s Hc _ IH]; [constructor |].
    apply (lang_star_cons (Class p) c [] s); [by constructor | done].
Qed.

Lemma lang_plus_class (p : N → bool) (s : jsstring) :
  lang (Plus (Class p)) s ↔ s ≠ [] ∧ Forall (λ c, p c = true) s.
Proof.
  unfold Plus. split.
  - intros (s1 & s2 & -> & (c & -> & Hp)%lang_class_inv & H2)%lang_seq_inv.
    apply lang_star_class in H2. split; [done | by constructor].
  - intros [Hne Hall]. destruct Hall as [|c s Hc Hs]; [done |].
    apply (lang_seq (Class p) (Star (Class p)) [c] s);
      [by constructor | by apply lang_star_class].
Qed.

Lemma lang_chr (c : N) (s : jsstring) : lang (Chr c) s ↔ s = [c].
Proof.
  unfold Chr. split.
  - intros (c' & -> & Hc%N.eqb_eq)%lang_class_inv. by subst.
  - intros ->. constructor. apply N.eqb_refl.
Qed.

(** [emailRegex.test] accepts exactly the texts of the shape
    [local-part@domain.tld]. *)
Lemma emailRegex_shape (s : jsstring) :
  matches emailRegex s = true ↔ email_shape s.
Proof.
  rewrite matches_lang. unfold emailRegex, email_shape, email_part. split.
  - intros (l & s1 & -> & Hl%lang_plus_class & H1)%lang_seq_inv.
    apply lang_seq_inv in H1 as (a & s2 & -> & ->%lang_chr & H2).
    apply lang_seq_inv in H2 as (d & s3 & -> & Hd%lang_plus_class & H3).
    apply lang_seq_inv in H3 as (f & t & -> & ->%lang_chr & Ht%lang_plus_class).
    exists l, d, t. simpl. auto.
  - intros (l & d & t & -> & Hl & Hd & Ht).
    constructor; [by apply lang_plus_class |].
    apply (lang_seq _ _ [at_sign]); [by apply lang_chr |].
    constructor; [by apply lang_plus_class |].
    apply (lang_seq _ _ [full_stop]); [by apply lang_chr |].
    by apply lang_plus_class.
Qed.

Lemma emailRegex_not_shape (s : jsstring) :
  matches emailRegex s = false ↔ ¬ email_shape s.
Proof.
  rewrite <- emailRegex_shape. by rewrite not_true_iff_false.
Qed.

Section Properties.

Context {number : Type} `{NumberOps number}.

Implicit Types (o r : list (jsstring * @value number)) (k userId : jsstring).
Implicit Types (v req_body : @value number) (users : @store number).

(** ** Property lists *)

Lemma get_own_define_eq k v o : get_own k (define k v o) = Some v.
Proof.
  induction o as [|[k' v'] o IH]; simpl.
  - by rewrite bool_decide_eq_true_2.
  - destruct (bool_decide (k' = k)) eqn:E; simpl.
    + by rewrite bool_decide_eq_true_2.
    + by rewrite E.
Qed.

Lemma get_own_define_ne k k' v o :
  k ≠ k' → get_own k (define k' v o) = get_own k o.
Proof.
  intros Hne. induction o as [|[k0 v0] o IH]; simpl.
  - by rewrite bool_decide_eq_false_2.
  - destruct (bool_decide (k0 = k')) eqn:E; simpl.
    + apply bool_decide_eq_true_1 in E as ->.
      by rewrite !bool_decide_eq_false_2.
    + by rewrite IH.
Qed.

Lemma get_own_None k o : get_own k o = None ↔ k ∉ o.*1.
Proof.
  induction o as [|[k' v'] o IH]; csimpl.
  - split; [intros _; apply not_elem_of_nil | done].
  - rewrite not_elem_of_cons. case_bool_decide; [|naive_solver].
    split; [done | naive_solver].
Qed.

Lemma define_fresh k v o : k ∉ o.*1 → define k v o = o ++ [(k, v)].
Proof.
  induction o as [|[k' v'] o IH]; csimpl; [done |].
  rewrite not_elem_of_cons. intros [Hne Hnin].
  rewrite bool_decide_eq_false_2 by done. by rewrite IH.
Qed.

Lemma define_keys_present k v o : k ∈ o.*1 → (define k v o).*1 = o.*1.
Proof.
  induction o as [|[k' v'] o IH]; csimpl.
  - by intros ?%elem_of_nil.
  - case_bool_decide as E; csimpl; [by subst |].
    intros [?|Hin]%elem_of_cons; [done |]. by rewrite IH.
Qed.

Lemma define_keys k v o : ∀ k', k' ∈ (define k v o).*1 ↔ k' = k ∨ k' ∈ o.*1.
Proof.
  intros k'. destruct (decide (k ∈ o.*1)) as [Hin|Hnin].
  - rewrite define_keys_present by done. naive_solver.
  - rewrite define_fresh by done. rewrite fmap_app, elem_of_app. csimpl.
    rewrite list_elem_of_singleton. naive_solver.
Qed.

Lemma define_wf k v o : wf_object o → wf_object (define k v o).
Proof.
  unfold wf_object. intros Hwf. destruct (decide (k ∈ o.*1)) as [Hin|Hnin].
  - by rewrite define_keys_present.
  - rewrite define_fresh by done. rewrite fmap_app. csimpl.
    apply NoDup_app. split_and!; [done | | apply NoDup_singleton].
    intros k' Hk' ->%list_elem_of_singleton. done.
Qed.

(** Overwriting twice keeps the second value. *)
Lemma define_define_eq k v w o : define k v (define k w o) = define k v o.
Proof.
  induction o as [|[k' v'] o IH]; csimpl.
  - by rewrite bool_decide_eq_true_2.
  - case_bool_decide as E; csimpl.
    + by rewrite bool_decide_eq_true_2.
    + rewrite bool_decide_eq_false_2 by done. by rewrite IH.
Qed.

(** A write to a key that is present commutes with writes to other keys. *)
Lemma define_comm_present k k' v w o :
  k ≠ k' → k ∈ o.*1 →
  define k v (define k' w o) = define k' w (define k v o).
Proof.
  intros Hne. induction o as [|[k0 v0] o IH]; csimpl.
  - by intros ?%elem_of_nil.
  - intros Hin. destruct (decide (k0 = k)) as [->|Hk].
    + rewrite (bool_decide_eq_false_2 (k = k')) by done. csimpl.
      rewrite !bool_decide_eq_true_2 by done. csimpl.
      by rewrite bool_decide_eq_false_2.
    + apply elem_of_cons in Hin as [?|Hin]; [done |].
      rewrite (bool_decide_eq_false_2 (k0 = k)) by done.
      case_bool_decide as E; csimpl.
      * rewrite bool_decide_eq_false_2 by congruence.
        by rewrite bool_decide_eq_true_2.
      * rewrite !bool_decide_eq_false_2 by done. by rewrite IH.
Qed.

(** Copying a well-formed object into a literal whose keys are disjoint
    from it appends its properties in order. *)
Lemma copy_append o acc :
  NoDup (acc ++ o).*1 →
  fold_left (λ o' kv, define kv.1 kv.2 o') o acc = acc ++ o.
Proof.
  revert acc. induction o as [|[k v] o IH]; intros acc Hnd; csimpl.
  - by rewrite app_nil_r.
  - rewrite define_fresh.
    + rewrite IH; rewrite <- app_assoc; done.
    + rewrite fmap_app in Hnd. apply NoDup_app in Hnd as (_ & Hdisj & _).
      intros Hin. apply (Hdisj k Hin). csimpl. apply elem_of_cons. by left.
Qed.

Lemma copy_wf o acc :
  wf_object acc → wf_object (fold_left (λ o' kv, define kv.1 kv.2 o') o acc).
Proof.
  revert acc. induction o as [|[k v] o IH]; intros acc Hwf; csimpl; [done |].
  apply IH. by apply define_wf.
Qed.

Lemma copy_keys o acc : ∀ k,
  k ∈ (fold_left (λ o' kv, define kv.1 kv.2 o') o acc).*1 ↔ k ∈ acc.*1 ∨ k ∈ o.*1.
Proof.
  revert acc. induction o as [|[k' v] o IH]; intros acc k; csimpl.
  - rewrite elem_of_nil. naive_solver.
  - rewrite IH, define_keys, elem_of_cons. naive_solver.
Qed.

Lemma object_literal_wf (ms : list (@member number)) : wf_object (object_literal ms).
Proof.
  unfold object_literal.
  assert (Hnil : wf_object (@nil (jsstring * @value number)))
    by apply NoDup_nil_2.
  revert Hnil. generalize (@nil (jsstring * @value number)).
  induction ms as [|m ms IH]; intros acc Hwf; csimpl; [done |].
  apply IH. destruct m; csimpl; [by apply copy_wf | by apply define_wf].
Qed.

(** ** The handlers *)

Lemma GetV_submitted req_body k :
  nullish req_body = false →
  GetV req_body k = Normal (submitted req_body k).
Proof. intros ?. unfold submitted. by destruct req_body. Qed.

Lemma GetV_Normal_inv req_body k v :
  GetV req_body k = Normal v →
  nullish req_body = false ∧ submitted req_body k = v.
Proof.
  unfold submitted. intros Hget. rewrite Hget.
  by destruct req_body.
Qed.

(** The update handler as a decision list: not found, fault on a body
    that has no properties, missing field, fault in the conversion of the
    email, malformed email, success. *)
Lemma app_put_unfold users userId req_body :
  app_put users userId req_body =
  let user := users_get users userId in
  let email := submitted req_body (js "email") in
  if negb (truthy user) then
    (users, res_status_json_message 404 (not_found_message userId))
  else if nullish req_body then
    (users, res_status_json_message 500 (js "Internal server error"))
  else if negb (ToBoolean email)
          || negb (ToBoolean (submitted req_body (js "firstName")))
          || negb (ToBoolean (submitted req_body (js "lastName"))) then
    (users, res_status_json_message 400
              (js "Email, firstName, and lastName are required fields"))
  else
    match ToString email with
    | Throw _ => (users, res_status_json_message 500 (js "Internal server error"))
    | Normal s =>
        if negb (matches emailRegex s) then
          (users, res_status_json_message 400 (js "Invalid email format"))
        else
          let users' := users_set users userId (merged user req_body) in
          (users', res_json (users_get users' userId))
    end.
Proof.
  unfold app_put. cbv zeta.
  destruct (negb (truthy (users_get users userId))); [done |].
  destruct (nullish req_body) eqn:Hb.
  - by destruct req_body.
  - rewrite !GetV_submitted by done. cbn [bind].
    destruct (_ || _ || _); [done |].
    unfold RegExp_test.
    destruct (ToString (submitted req_body (js "email"))) as [s|e]; [|done].
    cbn [bind]. by destruct (negb (matches emailRegex s)).
Qed.

Lemma users_get_known users userId r :
  own users !! userId = Some r → users_get users userId = Data (VObject r).
Proof. intros Hown. unfold users_get. by rewrite Hown. Qed.

Lemma users_set_known users userId r record :
  own users !! userId = Some r →
  users_set users userId record =
  {| own := <[userId := record]> (own users); proto := proto users |}.
Proof. intros Hown. unfold users_set. by rewrite Hown. Qed.

(** A fetch never writes. *)
Lemma app_get_store users userId : (app_get users userId).1 = users.
Proof. unfold app_get. by destruct (negb _). Qed.

(** An update leaves [users] as it was or performs the one assignment
    [users[userId] = { ... }]. *)
Lemma app_put_store users userId req_body :
  (app_put users userId req_body).1 = users
  ∨ (app_put users userId req_body).1
    = users_set users userId (merged (users_get users userId) req_body).
Proof.
  rewrite app_put_unfold. cbv zeta.
  repeat (destruct (negb _ || _ || _) || destruct (negb _)
          || destruct (nullish _) || destruct (ToString _)); auto.
Qed.

(** Only a completed assignment answers 200. *)
Lemma app_put_200_inv users userId req_body :
  status (app_put users userId req_body).2 = 200 →
  truthy (users_get users userId) = true
  ∧ passes_validation req_body
  ∧ app_put users userId req_body
    = (let users' := users_set users userId
                       (merged (users_get users userId) req_body) in
       (users', res_json (users_get users' userId))).
Proof.
  rewrite app_put_unfold. cbv zeta. unfold passes_validation, RegExp_test.
  destruct (truthy _); [|done]. cbn [negb].
  destruct (nullish req_body); [done |].
  destruct (ToBoolean (submitted req_body (js "email"))); [|done].
  destruct (ToBoolean (submitted req_body (js "firstName"))); [|done].
  destruct (ToBoolean (submitted req_body (js "lastName"))); [|done].
  cbn [negb orb].
  destruct (ToString _) as [s|e]; [|done]. cbn [bind].
  destruct (matches emailRegex s); [|done].
  cbn [negb]. intros _. by split_and!.
Qed.

Lemma app_put_valid users userId req_body :
  truthy (users_get users userId) = true →
  passes_validation req_body →
  app_put users userId req_body
  = (let users' := users_set users userId
                     (merged (users_get users userId) req_body) in
     (users', res_json (users_get users' userId))).
Proof.
  intros Hu (Hb & He & Hf & Hl & Ht).
  rewrite app_put_unfold. cbv zeta. rewrite Hu, Hb, He, Hf, Hl. cbn [negb orb].
  unfold RegExp_test in Ht.
  destruct (ToString _) as [s|e]; [|done]. cbn [bind] in Ht.
  injection Ht as ->. done.
Qed.

(** ** The merged record *)

Ltac js_neq :=
  let E := fresh in intros E; vm_compute in E; discriminate E.

(** [merged] writes the five payload keys, in the order of the literal,
    over the copy of [user]. *)
Lemma merged_unfold (user : @jsval number) req_body :
  merged user req_body =
  define (js "bio") (or_else (submitted req_body (js "bio")) VNull)
    (define (js "phoneNumber") (or_else (submitted req_body (js "phoneNumber")) VNull)
       (define (js "lastName") (submitted req_body (js "lastName"))
          (define (js "firstName") (submitted req_body (js "firstName"))
             (define (js "email") (submitted req_body (js "email"))
                (object_literal [Spread user]))))).
Proof. reflexivity. Qed.

Lemma spread_record r : wf_object r → object_literal [Spread (Data (VObject r))] = r.
Proof.
  intros Hwf. unfold object_literal. cbn [fold_left add_member own_enumerable].
  by rewrite copy_append.
Qed.

Lemma merged_wf (user : @jsval number) req_body : wf_object (merged user req_body).
Proof. apply object_literal_wf. Qed.

Lemma merged_fields (user : @jsval number) req_body :
  let m := merged user req_body in
  get_own (js "email") m = Some (submitted req_body (js "email"))
  ∧ get_own (js "firstName") m = Some (submitted req_body (js "firstName"))
  ∧ get_own (js "lastName") m = Some (submitted req_body (js "lastName"))
  ∧ get_own (js "phoneNumber") m
    = Some (or_else (submitted req_body (js "phoneNumber")) VNull)
  ∧ get_own (js "bio") m = Some (or_else (submitted req_body (js "bio")) VNull).
Proof.
  cbv zeta. rewrite merged_unfold.
  split_and!;
    repeat first [ apply get_own_define_eq
                 | rewrite get_own_define_ne by js_neq ].
Qed.

(** Every other key of the merged record comes from the copy of [user]. *)
Lemma merged_other_keys (user : @jsval number) req_body k :
  k ∉ payload_keys →
  get_own k (merged user req_body) = get_own k (object_literal [Spread user]).
Proof.
  unfold payload_keys. rewrite !not_elem_of_cons.
  intros (? & ? & ? & ? & ? & _). rewrite merged_unfold.
  by rewrite !get_own_define_ne.
Qed.

Lemma merged_keys (user : @jsval number) req_body k :
  k ∈ (merged user req_body).*1
  ↔ k ∈ payload_keys ∨ k ∈ (own_enumerable user).*1.
Proof.
  rewrite merged_unfold, !define_keys. unfold object_literal, payload_keys.
  cbn [fold_left add_member]. rewrite copy_keys, !elem_of_cons.
  rewrite !elem_of_nil. naive_solver.
Qed.

(** A second update overwrites all that the first one wrote: the result
    is the merge of the second payload alone. *)
Lemma merged_merged (user : @jsval number) b1 b2 :
  merged (Data (VObject (merged user b1))) b2 = merged user b2.
Proof.
  rewrite (merged_unfold (Data _)), spread_record by apply merged_wf.
  rewrite !(merged_unfold user).
  set (o := object_literal [Spread user]).
  repeat first
    [ rewrite define_define_eq
    | rewrite (define_comm_present (js "email")) by
        (first [js_neq | rewrite !define_keys; auto 10])
    | rewrite (define_comm_present (js "firstName")) by
        (first [js_neq | rewrite !define_keys; auto 10])
    | rewrite (define_comm_present (js "lastName")) by
        (first [js_neq | rewrite !define_keys; auto 10])
    | rewrite (define_comm_present (js "phoneNumber")) by
        (first [js_neq | rewrite !define_keys; auto 10]) ].
  reflexivity.
Qed.

(** ** Fetch *)

Lemma app_get_known users userId r :
  own users !! userId = Some r →
  app_get users userId = (users, res_json (Data (VObject r))).
Proof.
  intros Hown. unfold app_get. by rewrite (users_get_known _ _ r).
Qed.

(** C1. For every identifier under which [users] holds a record, the
    fetch answers 200 with exactly that record as its body and leaves
    [users] as it was. *)
Theorem fetch_known_returns_record users userId r :
  own users !! userId = Some r →
  app_get users userId
  = (users, {| status := 200; body := Data (VObject r) |}).
Proof. apply app_get_known. Qed.

(** An identifier that resolves to nothing, neither in [users] nor up
    its prototype chain, is answered 404 with a message that contains
    it. *)
Lemma fetch_unresolved_not_found users userId :
  users_get users userId = Data VUndefined →
  ∃ text,
    app_get users userId = (users, res_status_json_message 404 text)
    ∧ ∃ before after, text = before ++ userId ++ after.
Proof.
  intros Hget. exists (not_found_message userId). split.
  - unfold app_get. by rewrite Hget.
  - by exists (js "User with ID "), (js " not found").
Qed.

(** On a store whose prototype is still [Object.prototype], the absent
    identifiers that nevertheless pass the test [!user] are the keys of
    [Object.prototype]. *)
Lemma absent_but_truthy users userId :
  proto users = None →
  own users !! userId = None →
  truthy (users_get users userId) = true
  ↔ userId = proto_key ∨ is_Some (assoc userId Object_prototype_functions).
Proof.
  intros Hproto Hown. unfold users_get, Object_prototype_get.
  rewrite Hown, Hproto. case_bool_decide as Hk; [naive_solver |].
  destruct (assoc userId Object_prototype_functions) as [name|]; cbn.
  - split; [eauto | done].
  - split; [done |]. intros [? | [? ?]]; done.
Qed.

(** ** Update: rejected payloads *)

Lemma update_falsy_required_field users userId req_body f v :
  known users userId →
  f ∈ [js "email"; js "firstName"; js "lastName"] →
  GetV req_body f = Normal v →
  ToBoolean v = false →
  app_put users userId req_body
  = (users, res_status_json_message 400
              (js "Email, firstName, and lastName are required fields")).
Proof.
  intros [r Hown] Hf [Hb Hv]%GetV_Normal_inv Hfalse.
  rewrite app_put_unfold. cbv zeta.
  rewrite (users_get_known _ _ r), Hb by done. cbn [truthy negb].
  rewrite !elem_of_cons, elem_of_nil in Hf.
  destruct Hf as [-> | [-> | [-> | []]]]; rewrite Hv, Hfalse; cbn [negb orb];
    by rewrite ?orb_true_r.
Qed.

(** An identifier that fails the test [!user] is answered 404 whatever
    the payload: the lookup comes before every validation. *)
Lemma update_unresolved_not_found users userId req_body :
  truthy (users_get users userId) = false →
  app_put users userId req_body
  = (users, res_status_json_message 404 (not_found_message userId)).
Proof. intros Hu. rewrite app_put_unfold. cbv zeta. by rewrite Hu. Qed.

(** C3. For every known identifier and every payload in which email,
    firstName or lastName is missing ([undefined]) or empty, the update
    answers 400 with the message naming the required fields, and [users]
    (hence the stored record) is unchanged. *)
Theorem update_missing_required_field users userId req_body f v :
  known users userId →
  f ∈ [js "email"; js "firstName"; js "lastName"] →
  GetV req_body f = Normal v →
  v = VUndefined ∨ v = VString [] →
  app_put users userId req_body
  = (users,
     {| status := 400;
        body := Data (VObject
          [(js "message",
            VString (js "Email, firstName, and lastName are required fields"))]) |}).
Proof.
  intros Hk Hf Hget Hv.
  apply (update_falsy_required_field users userId req_body f v); try done.
  by destruct Hv as [-> | ->].
Qed.

(** What the email check does, for a known identifier and truthy required
    fields: [test] converts the email to text first.  When the text does
    not have the shape [local-part@domain.tld], the update answers 400
    "Invalid email format"; when the conversion throws, the update
    answers 500; in both cases [users] is unchanged. *)
Lemma update_malformed_email users userId req_body :
  known users userId →
  nullish req_body = false →
  ToBoolean (submitted req_body (js "email")) = true →
  ToBoolean (submitted req_body (js "firstName")) = true →
  ToBoolean (submitted req_body (js "lastName")) = true →
  (∀ s, ToString (submitted req_body (js "email")) = Normal s →
        ¬ email_shape s →
        app_put users userId req_body
        = (users,
           {| status := 400;
              body := Data (VObject
                [(js "message", VString (js "Invalid email format"))]) |}))
  ∧ (∀ e, ToString (submitted req_body (js "email")) = Throw e →
          app_put users userId req_body
          = (users,
             {| status := 500;
                body := Data (VObject
                  [(js "message", VString (js "Internal server error"))]) |})).
Proof.
  intros [r Hown] Hb He Hf Hl.
  rewrite app_put_unfold. cbv zeta.
  rewrite (users_get_known _ _ r), Hb, He, Hf, Hl by done.
  cbn [truthy negb orb]. split.
  - intros s -> Hshape%emailRegex_not_shape. by rewrite Hshape.
  - by intros e ->.
Qed.

(** ** Update: accepted payloads *)

Lemma app_put_known_valid users userId r req_body :
  own users !! userId = Some r →
  passes_validation req_body →
  let m := merged (Data (VObject r)) req_body in
  let users' := {| own := <[userId := m]> (own users); proto := proto users |} in
  app_put users userId req_body = (users', res_json (Data (VObject m))).
Proof.
  intros Hown Hvalid. cbv zeta.
  rewrite app_put_valid; [|by rewrite (users_get_known _ _ r)|done].
  cbv zeta. rewrite (users_get_known _ _ r) by done.
  rewrite (users_set_known _ _ r) by done.
  f_equal. unfold users_get. cbn [own]. by rewrite lookup_insert_eq.
Qed.

(** C5. For every known identifier and every payload passing validation,
    the update answers 200 with a record that replaces the stored one,
    so that a following fetch returns it.  That record holds the
    submitted email, firstName and lastName; for phoneNumber and bio the
    submitted value when it is truthy and [null] otherwise, in particular
    [null] when the payload omits the field; and under every other key
    what the stored record held before. *)
Theorem update_valid_replaces_record users userId r req_body :
  own users !! userId = Some r →
  passes_validation req_body →
  ∃ m,
    let users' :=
      {| own := <[userId := m]> (own users); proto := proto users |} in
    app_put users userId req_body
    = (users', {| status := 200; body := Data (VObject m) |})
    ∧ app_get users' userId
      = (users', {| status := 200; body := Data (VObject m) |})
    ∧ get_own (js "email") m = Some (submitted req_body (js "email"))
    ∧ get_own (js "firstName") m = Some (submitted req_body (js "firstName"))
    ∧ get_own (js "lastName") m = Some (submitted req_body (js "lastName"))
    ∧ (∀ f, f ∈ [js "phoneNumber"; js "bio"] →
         (ToBoolean (submitted req_body f) = true →
          get_own f m = Some (submitted req_body f))
         ∧ (ToBoolean (submitted req_body f) = false →
            get_own f m = Some VNull)
         ∧ (submitted req_body f = VUndefined → get_own f m = Some VNull))
    ∧ (wf_object r →
       ∀ k, k ∉ payload_keys → get_own k m = get_own k r).
Proof.
  intros Hown Hvalid. exists (merged (Data (VObject r)) req_body). cbv zeta.
  destruct (merged_fields (Data (VObject r)) req_body)
    as (He & Hf & Hl & Hp & Hb).
  split_and!; try done.
  - by apply app_put_known_valid.
  - apply app_get_known. cbn [own]. apply lookup_insert_eq.
  - intros f Hin. rewrite !elem_of_cons, elem_of_nil in Hin.
    assert (Hopt : get_own f (merged (Data (VObject r)) req_body)
                   = Some (or_else (submitted req_body f) VNull))
      by (destruct Hin as [-> | [-> | []]]; done).
    rewrite Hopt. unfold or_else. split_and!.
    + by intros ->.
    + by intros ->.
    + by intros ->.
  - intros Hwf k Hk. rewrite merged_other_keys by done.
    by rewrite spread_record.
Qed.

(** ** Well-formed stores *)

Lemma users_init_wf : wf_store (@users_init number).
Proof.
  split; [|done]. intros k r Hk. unfold users_init in Hk. cbn [own] in Hk.
  apply elem_of_list_to_map_2 in Hk.
  unfold wf_object.
  repeat (apply elem_of_cons in Hk as [Heq | Hk];
          [injection Heq as -> ->; apply (bool_decide_unpack _); by vm_compute |]).
  by apply elem_of_nil in Hk.
Qed.

Lemma users_set_wf users userId record :
  wf_store users → wf_object record → wf_store (users_set users userId record).
Proof.
  intros [Hown Hproto] Hrec.
  assert (Hins : wf_store {| own := <[userId := record]> (own users);
                             proto := proto users |}).
  { split; [|done]. intros k r. cbn [own]. rewrite lookup_insert.
    case_decide; [by intros [= <-] | apply Hown]. }
  unfold users_set. destruct (own users !! userId); [done |].
  destruct (inherited_data users userId); [done |].
  case_bool_decide; [|done].
  split; [done |]. cbn [proto]. by intros r [= <-].
Qed.

Lemma handle_wf users (req : @request number) :
  wf_store users → wf_store (handle users req).1.
Proof.
  intros Hwf. destruct req as [userId | userId req_body]; cbn [handle].
  - by rewrite app_get_store.
  - destruct (app_put_store users userId req_body) as [-> | ->]; [done |].
    apply users_set_wf; [done | apply merged_wf].
Qed.

(** Every store the server can reach is well formed. *)
Lemma reachable_wf users : reachable users → wf_store users.
Proof.
  induction 1 as [|users req _ IH]; [apply users_init_wf | by apply handle_wf].
Qed.

(** ** Frame of an update *)

Lemma id_not_payload_key : js "id" ∉ payload_keys.
Proof. apply (bool_decide_unpack _). by vm_compute. Qed.

Lemma merged_record_other_keys r req_body k :
  wf_object r → k ∉ payload_keys →
  get_own k (merged (Data (VObject r)) req_body) = get_own k r.
Proof.
  intros Hwf Hk. rewrite merged_other_keys by done. by rewrite spread_record.
Qed.

Lemma users_set_own_ne users userId record k :
  k ≠ userId → own (users_set users userId record) !! k = own users !! k.
Proof.
  intros Hne. unfold users_set.
  destruct (own users !! userId);
    [|destruct (inherited_data users userId); [|case_bool_decide]];
    cbn [own]; by rewrite ?lookup_insert_ne.
Qed.

(** The three records of the start-up store are never removed and keep
    their [id] equal to their key. *)
Lemma seeded_records_invariant users :
  reachable users →
  ∀ k, k ∈ [js "1"; js "2"; js "3"] →
    ∃ r, own users !! k = Some r ∧ get_own (js "id") r = Some (VString k).
Proof.
  induction 1 as [|users req Hreach IH]; intros k Hk.
  - rewrite !elem_of_cons, elem_of_nil in Hk.
    destruct Hk as [-> | [-> | [-> | []]]]; eexists; split;
      vm_compute; reflexivity.
  - destruct (IH k Hk) as (r & Hown & Hid).
    destruct req as [userId | userId req_body]; cbn [handle].
    { rewrite app_get_store. eauto. }
    destruct (app_put_store users userId req_body) as [-> | ->]; [eauto |].
    destruct (decide (k = userId)) as [<- | Hne].
    + rewrite (users_get_known _ _ r), (users_set_known _ _ r) by done.
      eexists. split; [apply lookup_insert_eq |].
      rewrite merged_record_other_keys; [done | | apply id_not_payload_key].
      apply reachable_wf in Hreach as [Hwf _]. by eapply Hwf.
    + rewrite users_set_own_ne by done. eauto.
Qed.

(** C7. In every store the server can reach, for every known identifier
    and every payload a successful update accepts (whatever else the
    payload carries, an [id] included), the [id] of the stored record is
    the one it had before, so it still equals the key when it did, as it
    always does for the three seeded records; and no key other than
    email, firstName, lastName, phoneNumber and bio changes. *)
Theorem update_keeps_id users userId r req_body :
  reachable users →
  own users !! userId = Some r →
  passes_validation req_body →
  ∃ r',
    status (app_put users userId req_body).2 = 200
    ∧ own (app_put users userId req_body).1 !! userId = Some r'
    ∧ get_own (js "id") r' = get_own (js "id") r
    ∧ (get_own (js "id") r = Some (VString userId) →
       get_own (js "id") r' = Some (VString userId))
    ∧ (userId ∈ [js "1"; js "2"; js "3"] →
       get_own (js "id") r' = Some (VString userId))
    ∧ ∀ k, k ∉ payload_keys → get_own k r' = get_own k r.
Proof.
  intros Hreach Hown Hvalid.
  pose proof (reachable_wf _ Hreach) as [Hwf _].
  exists (merged (Data (VObject r)) req_body).
  rewrite (app_put_known_valid users userId r) by done.
  cbn [fst snd own status res_json].
  assert (Hid : get_own (js "id") (merged (Data (VObject r)) req_body)
                = get_own (js "id") r).
  { apply merged_record_other_keys; [by eapply Hwf | apply id_not_payload_key]. }
  split_and!; [done | apply lookup_insert_eq | done | by rewrite Hid | |].
  - intros Hseed.
    destruct (seeded_records_invariant users Hreach userId Hseed)
      as (r0 & Hown0 & Hid0).
    rewrite Hid. congruence.
  - intros k Hk. apply merged_record_other_keys; [by eapply Hwf | done].
Qed.

(** C10. After a successful update of a known identifier, an optional
    field (phoneNumber or bio) is stored as [null] exactly when the
    submitted value is falsy, that is absent, [null], [false], the empty
    text or a zero number; for a submitted text, exactly when it is
    empty; a truthy value is stored as submitted. *)
Theorem optional_field_null_iff_falsy users userId r req_body f :
  own users !! userId = Some r →
  passes_validation req_body →
  f ∈ [js "phoneNumber"; js "bio"] →
  let v := submitted req_body f in
  ∃ r' stored,
    own (app_put users userId req_body).1 !! userId = Some r'
    ∧ get_own f r' = Some stored
    ∧ (stored = VNull ↔ ToBoolean v = false)
    ∧ (ToBoolean v = false ↔
       v = VUndefined ∨ v = VNull ∨ v = VBool false ∨ v = VString []
       ∨ ∃ n, v = VNumber n ∧ Number_falsy n = true)
    ∧ (∀ s, v = VString s → (stored = VNull ↔ s = []))
    ∧ (ToBoolean v = true → stored = v).
Proof.
  intros Hown Hvalid Hf v.
  exists (merged (Data (VObject r)) req_body), (or_else v VNull).
  rewrite (app_put_known_valid users userId r) by done. cbn [fst own].
  destruct (merged_fields (Data (VObject r)) req_body)
    as (_ & _ & _ & Hp & Hb).
  assert (Hnull : or_else v VNull = VNull ↔ ToBoolean v = false).
  { unfold or_else. destruct (ToBoolean v) eqn:E; [|done].
    split; [|done]. intros Hv. by rewrite Hv in E. }
  split_and!.
  - apply lookup_insert_eq.
  - rewrite !elem_of_cons, elem_of_nil in Hf.
    by destruct Hf as [-> | [-> | []]].
  - done.
  - destruct v as [| |[]|n|s|l|o]; cbn [ToBoolean]; split; intros Hv;
      try done; try naive_solver.
    { apply negb_false_iff in Hv. eauto 10. }
    { destruct Hv as [?|[?|[?|[?|(n' & Heq & Hn)]]]]; try done.
      injection Heq as <-. by rewrite Hn. }
    { apply negb_false_iff, bool_decide_eq_true_1 in Hv as ->. auto. }
  - intros s Hs. rewrite Hnull, Hs. cbn [ToBoolean].
    rewrite negb_false_iff, bool_decide_eq_true. done.
  - intros Hv. unfold or_else. by rewrite Hv.
Qed.

(** ** Reading back an assignment *)

Lemma proto_key_not_payload_key : proto_key ∉ payload_keys.
Proof. apply (bool_decide_unpack _). by vm_compute. Qed.

(** After [users[userId] = { ...user, ... }], [users[userId]] is the new
    record, also when the assignment went to the prototype slot. *)
Lemma users_get_set users userId req_body :
  let m := merged (users_get users userId) req_body in
  users_get (users_set users userId m) userId = Data (VObject m).
Proof.
  cbv zeta. set (m := merged _ _).
  assert (Hins : users_get {| own := <[userId := m]> (own users);
                              proto := proto users |} userId
                 = Data (VObject m)).
  { unfold users_get. cbn [own]. by rewrite lookup_insert_eq. }
  unfold users_set.
  destruct (own users !! userId) as [r|] eqn:Hown; [done |].
  destruct (inherited_data users userId) eqn:Hinh; [done |].
  case_bool_decide as Hk; [|done]. subst userId.
  apply orb_false_iff in Hinh as [Hr _].
  assert (Hnone : get_own proto_key m = None).
  { apply get_own_None. subst m. rewrite merged_keys.
    intros [Hin | Hin]; [by apply proto_key_not_payload_key |].
    revert Hin. unfold users_get. rewrite Hown.
    unfold Object_prototype_get. rewrite bool_decide_eq_true_2 by done.
    destruct (proto users) as [r|]; cbn [own_enumerable].
    - destruct (get_own proto_key r) eqn:Hg.
      + rewrite bool_decide_eq_false in Hr. destruct Hr. by eexists.
      + by apply get_own_None.
    - apply not_elem_of_nil. }
  unfold users_get. cbn [own proto]. rewrite Hown, Hnone.
  unfold Object_prototype_get. rewrite bool_decide_eq_true_2 by done. done.
Qed.

(** ** The identifiers *)

(** An update of a known identifier keeps the set of identifiers. *)
Lemma update_known_same_identifiers users userId req_body :
  known users userId →
  dom (own (app_put users userId req_body).1) = dom (own users).
Proof.
  intros [r Hown].
  destruct (app_put_store users userId req_body) as [-> | ->]; [done |].
  rewrite (users_set_known _ _ r) by done. cbn [own].
  rewrite dom_insert_L. apply elem_of_dom_2 in Hown. set_solver.
Qed.

(** No request removes an identifier. *)
Lemma handle_keeps_identifiers users (req : @request number) :
  dom (own users) ⊆ dom (own (handle users req).1).
Proof.
  destruct req as [userId | userId req_body]; cbn [handle].
  - by rewrite app_get_store.
  - destruct (app_put_store users userId req_body) as [-> | ->]; [done |].
    unfold users_set.
    destruct (own users !! userId);
      [|destruct (inherited_data users userId); [|case_bool_decide]];
      cbn [own]; rewrite ?dom_insert_L; set_solver.
Qed.

(** ** Two updates in flight *)




End Properties.

(** * Instances on the start-up store *)

Lemma payload_valid_passes : passes_validation payload_valid.
Proof. repeat split. Qed.

Lemma payload_with_id_passes : passes_validation payload_with_id.
Proof. repeat split. Qed.

Lemma fetch_known_returns_record_witness :
  ∃ r, own (@users_init safe_integer) !! js "2" = Some r
       ∧ app_get users_init (js "2")
         = (users_init, {| status := 200; body := Data (VObject r) |}).
Proof.
  eexists. split; [reflexivity |].
  apply (fetch_known_returns_record users_init (js "2")). reflexivity.
Defined.

(** C2, at an inherited key. [constructor] is not an identifier of
    [users], yet [users['constructor']] is the function [Object] that
    every object inherits: the fetch skips the 404 branch and answers 200
    with that function as its body. *)
Theorem fetch_inherited_key_answers_200 :
  ¬ known (@users_init safe_integer) (js "constructor")
  ∧ app_get (@users_init safe_integer) (js "constructor")
    = (users_init, {| status := 200; body := Builtin (js "Object") |}).
Proof.
  split; [|reflexivity]. intros [r Hr]. vm_compute in Hr. discriminate Hr.
Qed.

Lemma update_missing_required_field_witness :
  known (@users_init safe_integer) (js "1")
  ∧ js "email" ∈ [js "email"; js "firstName"; js "lastName"]
  ∧ GetV payload_no_email (js "email") = Normal VUndefined
  ∧ app_put users_init (js "1") payload_no_email
    = (users_init,
       {| status := 400;
          body := Data (VObject
            [(js "message",
              VString (js "Email, firstName, and lastName are required fields"))]) |}).
Proof.
  assert (Hk : known (@users_init safe_integer) (js "1")) by (eexists; reflexivity).
  assert (Hf : js "email" ∈ [js "email"; js "firstName"; js "lastName"])
    by (apply elem_of_cons; by left).
  split_and!; [done | done | reflexivity |].
  apply (update_missing_required_field users_init (js "1") payload_no_email
           (js "email") VUndefined Hk Hf eq_refl).
  by left.
Defined.

(** Not every email that is no text of the shape
    [local-part@domain.tld] is answered 400: an object that carries its
    own [toString] entry, with every required field present and a known
    identifier, is not. *)
Lemma update_unconvertible_email_not_400 :
  ¬ (∀ (users : @store safe_integer) userId req_body,
       known users userId →
       ToBoolean (submitted req_body (js "email")) = true →
       ToBoolean (submitted req_body (js "firstName")) = true →
       ToBoolean (submitted req_body (js "lastName")) = true →
       (∀ s, submitted req_body (js "email") = VString s → ¬ email_shape s) →
       status (app_put users userId req_body).2 = 400
       ∧ (app_put users userId req_body).1 = users).
Proof.
  intros Hclaim.
  destruct (Hclaim users_init (js "1") payload_unconvertible_email)
    as [Hstatus _]; try reflexivity.
  - eexists; reflexivity.
  - intros s Hs. vm_compute in Hs. discriminate Hs.
  - vm_compute in Hstatus. discriminate Hstatus.
Qed.

Lemma update_malformed_email_witness :
  known (@users_init safe_integer) (js "2")
  ∧ nullish payload_bad_email = false
  ∧ ToBoolean (submitted payload_bad_email (js "email")) = true
  ∧ ToBoolean (submitted payload_bad_email (js "firstName")) = true
  ∧ ToBoolean (submitted payload_bad_email (js "lastName")) = true
  ∧ ToString (submitted payload_bad_email (js "email")) = Normal (js "not-an-email")
  ∧ ¬ email_shape (js "not-an-email")
  ∧ app_put users_init (js "2") payload_bad_email
    = (users_init,
       {| status := 400;
          body := Data (VObject
            [(js "message", VString (js "Invalid email format"))]) |})
  ∧ ToString (submitted payload_unconvertible_email (js "email")) = Throw TypeError
  ∧ app_put users_init (js "2") payload_unconvertible_email
    = (users_init,
       {| status := 500;
          body := Data (VObject
            [(js "message", VString (js "Internal server error"))]) |}).
Proof.
  assert (Hk : known (@users_init safe_integer) (js "2")) by (eexists; reflexivity).
  assert (Hshape : ¬ email_shape (js "not-an-email"))
    by (apply emailRegex_not_shape; reflexivity).
  pose proof (update_malformed_email users_init (js "2") payload_bad_email
                Hk eq_refl eq_refl eq_refl eq_refl) as [Hbad _].
  pose proof (update_malformed_email users_init (js "2")
                payload_unconvertible_email
                Hk eq_refl eq_refl eq_refl eq_refl) as [_ Hthrow].
  exact (conj Hk (conj eq_refl (conj eq_refl (conj eq_refl (conj eq_refl
          (conj eq_refl (conj Hshape
            (conj (Hbad (js "not-an-email") eq_refl Hshape)
              (conj eq_refl (Hthrow TypeError eq_refl)))))))))).
Defined.

(** C4, at an email that is no text.  For the known identifier 1 and
    payloads whose required fields are all present, an email that does
    not have the shape [local-part@domain.tld] is not always answered
    400: the object [{ "toString": 1 }] makes [emailRegex.test] throw
    and is answered 500; the array [["a@b", "c.d"]], which [test] reads
    as the text [a@b,c.d], is answered 200 and stored as the email.  The
    object [{}] beside them is answered 400 "Invalid email format". *)
Theorem update_non_text_email_not_rejected :
  known (@users_init safe_integer) (js "1")
  ∧ (ToBoolean (submitted payload_unconvertible_email (js "email")) = true
     ∧ (∀ s, submitted payload_unconvertible_email (js "email") ≠ VString s)
     ∧ app_put users_init (js "1") payload_unconvertible_email
       = (users_init,
          {| status := 500;
             body := Data (VObject
               [(js "message", VString (js "Internal server error"))]) |}))
  ∧ (ToBoolean (submitted payload_array_email (js "email")) = true
     ∧ (∀ s, submitted payload_array_email (js "email") ≠ VString s)
     ∧ status (app_put users_init (js "1") payload_array_email).2 = 200
     ∧ ∃ r,
         own (app_put users_init (js "1") payload_array_email).1 !! js "1"
         = Some r
         ∧ get_own (js "email") r
           = Some (VArray [VString (js "a@b"); VString (js "c.d")]))
  ∧ app_put users_init (js "1") payload_object_email
    = (users_init,
       {| status := 400;
          body := Data (VObject
            [(js "message", VString (js "Invalid email format"))]) |}).
Proof.
  split_and!; try reflexivity.
  - eexists; reflexivity.
  - intros s Hs. vm_compute in Hs. discriminate Hs.
  - intros s Hs. vm_compute in Hs. discriminate Hs.
  - eexists. split; vm_compute; reflexivity.
Qed.

Lemma update_valid_replaces_record_witness :
  ∃ r m users',
    own (@users_init safe_integer) !! js "3" = Some r
    ∧ passes_validation payload_with_id
    ∧ wf_object r
    ∧ app_put users_init (js "3") payload_with_id
      = (users', {| status := 200; body := Data (VObject m) |})
    ∧ own users' !! js "3" = Some m
    ∧ app_get users' (js "3")
      = (users', {| status := 200; body := Data (VObject m) |})
    ∧ get_own (js "email") m = Some (VString (js "bob@new.example.org"))
    ∧ get_own (js "firstName") m = Some (VString (js "Rob"))
    ∧ get_own (js "lastName") m = Some (VString (js "Wilson"))
    ∧ get_own (js "phoneNumber") m = Some VNull
    ∧ get_own (js "bio") m = Some (VString (js "Hello"))
    ∧ get_own (js "id") m = Some (VString (js "3")).
Proof.
  eexists.
  destruct (update_valid_replaces_record users_init (js "3") _ payload_with_id
              eq_refl payload_with_id_passes)
    as (m & Hput & Hget & Hemail & Hfirst & Hlast & Hopt & Hkeep).
  assert (Hwf : wf_object
            [ (js "id", @VString safe_integer (js "3"));
              (js "email", VString (js "bob.wilson@example.com"));
              (js "firstName", VString (js "Bob"));
              (js "lastName", VString (js "Wilson"));
              (js "phoneNumber", VString (js "+1-555-987-6543"));
              (js "bio", VNull) ])
    by (apply (bool_decide_unpack _); by vm_compute).
  assert (Hp : js "phoneNumber" ∈ [js "phoneNumber"; js "bio"])
    by (apply elem_of_cons; by left).
  assert (Hb : js "bio" ∈ [js "phoneNumber"; js "bio"])
    by (apply elem_of_cons; right; apply elem_of_cons; by left).
  exists m. eexists.
  exact (conj eq_refl (conj payload_with_id_passes (conj Hwf (conj Hput
          (conj (lookup_insert_eq _ _ _) (conj Hget (conj Hemail (conj Hfirst
            (conj Hlast (conj (proj1 (proj2 (Hopt _ Hp)) eq_refl)
              (conj (proj1 (Hopt _ Hb) eq_refl)
                (Hkeep Hwf (js "id") id_not_payload_key)))))))))))).
Defined.

(** C6, at an inherited key. [constructor] is not an identifier of
    [users], yet the update does not answer 404: the inherited function
    passes the lookup test, so an empty payload is answered 400 by the
    validation, and a valid payload is answered 200 and stored under the
    new key. *)
Theorem update_inherited_key_not_404 :
  ¬ known (@users_init safe_integer) (js "constructor")
  ∧ status (app_put users_init (js "constructor") payload_empty).2 = 400
  ∧ status (app_put users_init (js "constructor") payload_valid).2 = 200
  ∧ known (app_put users_init (js "constructor") payload_valid).1
      (js "constructor").
Proof.
  split_and!; try reflexivity.
  - intros [r Hr]. vm_compute in Hr. discriminate Hr.
  - eexists. vm_compute. reflexivity.
Qed.

Lemma update_keeps_id_witness :
  ∃ r r',
    reachable (@users_init safe_integer)
    ∧ own (@users_init safe_integer) !! js "3" = Some r
    ∧ passes_validation payload_with_id
    ∧ get_own (js "id") r = Some (VString (js "3"))
    ∧ status (app_put users_init (js "3") payload_with_id).2 = 200
    ∧ own (app_put users_init (js "3") payload_with_id).1 !! js "3" = Some r'
    ∧ get_own (js "id") r' = Some (VString (js "3")).
Proof.
  eexists.
  destruct (update_keeps_id users_init (js "3") _ payload_with_id
              reachable_init eq_refl payload_with_id_passes)
    as (r' & Hstatus & Hown & _ & Hid & _ & _).
  exists r'.
  exact (conj reachable_init (conj eq_refl (conj payload_with_id_passes
          (conj eq_refl (conj Hstatus (conj Hown (Hid eq_refl))))))).
Defined.

(** C8, at an inherited key. One valid update addressed to
    [constructor] takes the start-up store, with its three identifiers,
    to a reachable store with a fourth. *)
Theorem update_inherited_key_creates_record :
  dom (own (@users_init safe_integer)) = {[js "1"; js "2"; js "3"]}
  ∧ reachable (handle (@users_init safe_integer) (PUT (js "constructor") payload_valid)).1
  ∧ dom (own (handle (@users_init safe_integer) (PUT (js "constructor") payload_valid)).1)
    = {[js "1"; js "2"; js "3"; js "constructor"]}.
Proof.
  split_and!.
  - apply (bool_decide_unpack _). by vm_compute.
  - apply reachable_handle, reachable_init.
  - apply (bool_decide_unpack _). by vm_compute.
Qed.


Lemma optional_field_null_iff_falsy_witness :
  ∃ r r' stored,
    own (@users_init safe_integer) !! js "3" = Some r
    ∧ passes_validation payload_with_id
    ∧ js "phoneNumber" ∈ [js "phoneNumber"; js "bio"]
    ∧ submitted payload_with_id (js "phoneNumber") = VString []
    ∧ own (app_put users_init (js "3") payload_with_id).1 !! js "3" = Some r'
    ∧ get_own (js "phoneNumber") r' = Some stored
    ∧ stored = VNull.
Proof.
  assert (Hf : js "phoneNumber" ∈ [js "phoneNumber"; js "bio"])
    by (apply elem_of_cons; by left).
  eexists.
  destruct (optional_field_null_iff_falsy users_init (js "3") _ payload_with_id
              (js "phoneNumber") eq_refl payload_with_id_passes Hf)
    as (r' & stored & Hown & Hget & Hnull & _).
  exists r', stored.
  exact (conj eq_refl (conj payload_with_id_passes (conj Hf (conj eq_refl
          (conj Hown (conj Hget (proj2 Hnull eq_refl))))))).
Defined.

(** ** Further evaluations *)

Example index_key_digits :
  index_key 0 = js "0" ∧ index_key 10 = js "10" ∧ index_key 1234 = js "1234".
Proof. by vm_compute. Qed.

Example Z_toString_digits :
  Z_toString 0 = js "0" ∧ Z_toString 2048 = js "2048"
  ∧ Z_toString (-57) = js "-57".
Proof. by vm_compute. Qed.

(** Spreading a string copies its code units under their indices. *)
Example spread_string :
  object_literal [Spread (Data (@VString safe_integer (js "a@b")))]
  = [ (js "0", VString (js "a")); (js "1", VString (js "@"));
      (js "2", VString (js "b")) ].
Proof. reflexivity. Qed.

Example emailRegex_accepts_seeded_email :
  matches emailRegex (js "jane.smith@example.com") = true.
Proof. reflexivity. Qed.

Example emailRegex_rejects_space :
  matches emailRegex (js "jane smith@example.com") = false.
Proof. reflexivity. Qed.

Example emailRegex_rejects_no_tld :
  matches emailRegex (js "jane@example") = false.
Proof. reflexivity. Qed.

(** An array is accepted as an email when its text has the shape. *)
Example array_email_passes_test :
  RegExp_test emailRegex
    (VArray [VNumber {| the_integer := 12; is_safe := eq_refl |};
             VString (js "@b.c")])
  = Normal true.
Proof. reflexivity. Qed.

(** A fetch of an unknown, uninherited identifier on the start-up store. *)
Example fetch_4_not_found :
  app_get (@users_init safe_integer) (js "4")
  = (users_init,
     {| status := 404;
        body := Data (VObject
          [(js "message", VString (js "User with ID 4 not found"))]) |}).
Proof. reflexivity. Qed.

(** An update of such an identifier is answered 404 before any
    validation. *)
Example update_4_not_found :
  app_put (@users_init safe_integer) (js "4") payload_empty
  = (users_init,
     {| status := 404;
        body := Data (VObject
          [(js "message", VString (js "User with ID 4 not found"))]) |}).
Proof. reflexivity. Qed.

(** An update addressed to [__proto__] creates no record: it replaces
    the prototype of [users], after which the fields of the payload are
    read as if they were identifiers. *)
Example update_proto_key_replaces_prototype :
  let users' := (app_put (@users_init safe_integer) (js "__proto__") payload_valid).1 in
  own users' = own users_init
  ∧ proto users' = Some (merged ObjectPrototype payload_valid)
  ∧ app_get users' (js "email")
    = (users',
       {| status := 200;
          body := Data (VString (js "jane@new.example.org")) |}).
Proof. by vm_compute. Qed.

(** * Further properties of the handlers *)

Section HandlerProperties.

Context {number : Type} `{NumberOps number}.

Implicit Types (o r m : list (jsstring * @value number)) (k userId : jsstring).
Implicit Types (v req_body : @value number) (users : @store number).

(** ** What an update can answer and when it writes *)

Lemma app_put_cases users userId req_body :
  (status (app_put users userId req_body).2 ≠ 200
   ∧ (app_put users userId req_body).1 = users
   ∧ (status (app_put users userId req_body).2 = 400
      ∨ status (app_put users userId req_body).2 = 404
      ∨ status (app_put users userId req_body).2 = 500))
  ∨ (status (app_put users userId req_body).2 = 200
     ∧ truthy (users_get users userId) = true
     ∧ passes_validation req_body
     ∧ (app_put users userId req_body).1
       = users_set users userId (merged (users_get users userId) req_body)).
Proof.
  destruct (N.eq_dec (status (app_put users userId req_body).2) 200)
    as [E | E].
  - right. destruct (app_put_200_inv _ _ _ E) as (Hu & Hv & Heq).
    split_and!; try done. by rewrite Heq.
  - left. revert E. rewrite app_put_unfold. cbv zeta.
    destruct (negb (truthy _)); [cbn; auto |].
    destruct (nullish req_body); [cbn; auto |].
    destruct (_ || _ || _); [cbn; auto |].
    destruct (ToString _) as [s|e]; [|cbn; auto].
    destruct (negb (matches emailRegex s)); [cbn; auto |].
    cbn. done.
Qed.

(** X2. An update answers 200, 400, 404 or 500, and whenever its answer
    is not 200 it has left [users] exactly as it was: every rejected or
    faulted update is without effect. *)
Theorem update_writes_only_on_200 users userId req_body :
  (status (app_put users userId req_body).2 = 200
   ∨ status (app_put users userId req_body).2 = 400
   ∨ status (app_put users userId req_body).2 = 404
   ∨ status (app_put users userId req_body).2 = 500)
  ∧ (status (app_put users userId req_body).2 ≠ 200 →
     (app_put users userId req_body).1 = users).
Proof.
  destruct (app_put_cases users userId req_body)
    as [(Hne & Hst & Hs) | (H200 & _)].
  - split; [tauto | done].
  - split; [auto | done].
Qed.

(** ** Identifiers that resolve to nothing *)

(** X3. On a store whose prototype is still [Object.prototype], an
    identifier that is neither a key of [users] nor a property name of
    [Object.prototype] is answered 404 with the message
    [User with ID <id> not found], by the fetch and by the update
    whatever its payload (an absent body included), and [users] is
    unchanged. *)
Theorem unresolved_identifier_not_found users userId :
  proto users = None →
  own users !! userId = None →
  userId ≠ proto_key →
  assoc userId Object_prototype_functions = None →
  let answer :=
    {| status := 404;
       body := Data (VObject
         [(js "message",
           VString (js "User with ID " ++ userId ++ js " not found"))]) |} in
  app_get users userId = (users, answer)
  ∧ ∀ req_body, app_put users userId req_body = (users, answer).
Proof.
  intros Hproto Hown Hk Hfun answer.
  assert (Hu : truthy (users_get users userId) = false).
  { apply not_true_is_false. rewrite absent_but_truthy by done.
    intros [? | [? ?]]; congruence. }
  split.
  - unfold app_get. by rewrite Hu.
  - intros req_body. by rewrite update_unresolved_not_found.
Qed.

(** X9. When the request carries no parsed body ([req.body] is
    [undefined] or [null]) and the identifier passes the lookup, the
    destructuring throws and the update answers 500
    "Internal server error", not 400; [users] is unchanged. *)
Theorem update_without_body_faults users userId req_body :
  truthy (users_get users userId) = true →
  nullish req_body = true →
  app_put users userId req_body
  = (users,
     {| status := 500;
        body := Data (VObject
          [(js "message", VString (js "Internal server error"))]) |}).
Proof.
  intros Hu Hb. rewrite app_put_unfold. cbv zeta. by rewrite Hu, Hb.
Qed.

(** X10. For every identifier that passes the lookup, a required field
    submitted with any falsy value ([null], [false], zero, the empty
    text, or absent) is answered 400 with the required-fields message,
    whatever the email is: this check comes before the conversion and
    the match of the email. *)
Theorem update_falsy_required_field_first users userId req_body f v :
  truthy (users_get users userId) = true →
  f ∈ [js "email"; js "firstName"; js "lastName"] →
  GetV req_body f = Normal v →
  ToBoolean v = false →
  app_put users userId req_body
  = (users,
     {| status := 400;
        body := Data (VObject
          [(js "message",
            VString (js "Email, firstName, and lastName are required fields"))]) |}).
Proof.
  intros Hu Hf [Hb Hv]%GetV_Normal_inv Hfalse.
  rewrite app_put_unfold. cbv zeta. rewrite Hu, Hb. cbn [negb].
  rewrite !elem_of_cons, elem_of_nil in Hf.
  destruct Hf as [-> | [-> | [-> | []]]]; rewrite Hv, Hfalse; cbn [negb orb];
    by rewrite ?orb_true_r.
Qed.

(** ** Reading back, repeating and framing an update *)

(** X12. After any update answered 200, whatever identifier it was
    addressed to, a fetch of that identifier returns exactly the response
    of the update. *)
Theorem fetch_after_update_returns_its_response users userId req_body :
  status (app_put users userId req_body).2 = 200 →
  app_get (app_put users userId req_body).1 userId
  = ((app_put users userId req_body).1, (app_put users userId req_body).2).
Proof.
  intros (_ & _ & E)%app_put_200_inv. rewrite E. cbv zeta. cbn [fst snd].
  unfold app_get. by rewrite users_get_set.
Qed.

Lemma merged_without_proto_key users req_body :
  own users !! proto_key = None →
  inherited_data users proto_key = false →
  get_own proto_key (merged (users_get users proto_key) req_body) = None.
Proof.
  intros Hown [Hr _]%orb_false_iff.
  apply get_own_None. rewrite merged_keys.
  intros [Hin | Hin]; [by apply proto_key_not_payload_key |].
  revert Hin. unfold users_get. rewrite Hown.
  unfold Object_prototype_get. rewrite bool_decide_eq_true_2 by done.
  destruct (proto users) as [r|]; cbn [own_enumerable].
  - destruct (get_own proto_key r) eqn:Hg.
    + rewrite bool_decide_eq_false in Hr. destruct Hr. by eexists.
    + by apply get_own_None.
  - apply not_elem_of_nil.
Qed.

(** Assigning the same record twice is assigning it once. *)
Lemma users_set_twice users userId req_body :
  let m := merged (users_get users userId) req_body in
  users_set (users_set users userId m) userId m = users_set users userId m.
Proof.
  cbv zeta. set (m := merged _ _).
  assert (Hins : ∀ u : @store number,
             users_set {| own := <[userId := m]> (own u); proto := proto u |}
               userId m
             = {| own := <[userId := m]> (own u); proto := proto u |}).
  { intros u. unfold users_set. cbn [own proto].
    by rewrite lookup_insert_eq, insert_insert_eq. }
  assert (Hcase :
    users_set users userId m
    = {| own := <[userId := m]> (own users); proto := proto users |}
    ∨ (userId = proto_key ∧ own users !! userId = None
       ∧ inherited_data users userId = false
       ∧ users_set users userId m = {| own := own users; proto := Some m |})).
  { unfold users_set. destruct (own users !! userId); [by left |].
    destruct (inherited_data users userId); [by left |].
    case_bool_decide; [right | left]; done. }
  destruct Hcase as [-> | (Hk & Hown & Hinh & ->)]; [apply Hins |].
  subst userId.
  pose proof (merged_without_proto_key users req_body Hown Hinh) as Hnone.
  fold m in Hnone.
  apply orb_false_iff in Hinh as [_ Hfun].
  unfold users_set, inherited_data. cbn [own proto].
  rewrite Hown, Hfun, orb_false_r.
  rewrite bool_decide_eq_false_2 by (rewrite Hnone; by intros [? ?]).
  by rewrite bool_decide_eq_true_2.
Qed.

(** X4. An update answered 200 is idempotent: sent a second time, it is
    answered with the same response and leaves [users] as the first one
    left it. *)
Theorem update_idempotent users userId req_body :
  status (app_put users userId req_body).2 = 200 →
  app_put (app_put users userId req_body).1 userId req_body
  = app_put users userId req_body.
Proof.
  intros (_ & Hvalid & E)%app_put_200_inv. rewrite E. cbv zeta. cbn [fst].
  rewrite app_put_valid; [|by rewrite users_get_set|done].
  cbv zeta. rewrite users_get_set, merged_merged, users_set_twice.
  by rewrite users_get_set.
Qed.

Lemma app_put_own_ne users userId req_body k :
  k ≠ userId →
  own (app_put users userId req_body).1 !! k = own users !! k.
Proof.
  intros Hne.
  destruct (app_put_store users userId req_body) as [-> | ->]; [done |].
  by apply users_set_own_ne.
Qed.

(** X5. An update addressed to one identifier, whatever its outcome,
    leaves the record stored under every other identifier as it was: a
    fetch of the other identifier still returns that record. *)
Theorem update_leaves_other_records users userId req_body k r :
  k ≠ userId →
  own users !! k = Some r →
  own (app_put users userId req_body).1 !! k = Some r
  ∧ (app_get (app_put users userId req_body).1 k).2
    = {| status := 200; body := Data (VObject r) |}.
Proof.
  intros Hne Hown.
  assert (Hown' : own (app_put users userId req_body).1 !! k = Some r)
    by (by rewrite app_put_own_ne).
  split; [done |]. by rewrite (app_get_known _ _ r).
Qed.

(** The outcome of an update of a known identifier depends on the store
    only through the record under that identifier. *)
Lemma app_put_known_local (u1 u2 : @store number) userId r req_body :
  own u1 !! userId = Some r →
  own u2 !! userId = Some r →
  (app_put u1 userId req_body).2 = (app_put u2 userId req_body).2
  ∧ ((app_put u1 userId req_body).1 = u1
     ∧ (app_put u2 userId req_body).1 = u2
     ∨ ∃ m,
         (app_put u1 userId req_body).1
         = {| own := <[userId := m]> (own u1); proto := proto u1 |}
         ∧ (app_put u2 userId req_body).1
           = {| own := <[userId := m]> (own u2); proto := proto u2 |}).
Proof.
  intros H1 H2.
  destruct (app_put_cases u1 userId req_body)
    as [(Hne & Hst & _) | (H200 & _ & Hvalid & _)].
  - assert (E : app_put u2 userId req_body
                = (u2, (app_put u1 userId req_body).2)).
    { revert Hne. rewrite !app_put_unfold. cbv zeta.
      rewrite (users_get_known u1 _ r), (users_get_known u2 _ r) by done.
      cbn [truthy ToBoolean negb].
      destruct (nullish req_body); [done |].
      destruct (_ || _ || _); [done |].
      destruct (ToString _) as [s|e]; [|done].
      destruct (negb (matches emailRegex s)); [done |].
      cbn. done. }
    rewrite E. cbn [fst snd]. auto.
  - rewrite (app_put_known_valid u1 userId r), (app_put_known_valid u2 userId r)
      by done.
    cbn [fst snd]. split; [done |]. right. by eexists.
Qed.

(** X11. Updates of two different known identifiers commute: in either
    order they leave the same [users], and each is answered as it would
    be alone. *)
Theorem updates_of_distinct_identifiers_commute users k1 k2 b1 b2 :
  k1 ≠ k2 →
  known users k1 →
  known users k2 →
  (app_put (app_put users k1 b1).1 k2 b2).1
  = (app_put (app_put users k2 b2).1 k1 b1).1
  ∧ (app_put (app_put users k1 b1).1 k2 b2).2 = (app_put users k2 b2).2
  ∧ (app_put (app_put users k2 b2).1 k1 b1).2 = (app_put users k1 b1).2.
Proof.
  intros Hne [r1 Hr1] [r2 Hr2].
  assert (Hr2' : own (app_put users k1 b1).1 !! k2 = Some r2)
    by (by rewrite app_put_own_ne).
  assert (Hr1' : own (app_put users k2 b2).1 !! k1 = Some r1)
    by (by rewrite app_put_own_ne).
  destruct (app_put_known_local _ users k2 r2 b2 Hr2' Hr2) as [E2 S2].
  destruct (app_put_known_local _ users k1 r1 b1 Hr1' Hr1) as [E1 S1].
  split_and!; [|done|done].
  destruct S1 as [[S1 S1'] | (m1 & S1 & S1')],
           S2 as [[S2 S2'] | (m2 & S2 & S2')];
    rewrite S1, S2; rewrite ?S1', ?S2'; cbn [own proto]; try done.
  f_equal. by apply insert_insert_ne.
Qed.

(** ** Invariants of the reachable stores *)

(** X6. In every store the server can reach, each of the three seeded
    identifiers is still fetchable: the fetch answers 200 with a record
    whose [id] is the identifier; and every identifier of the start-up
    store is still an identifier. *)
Theorem seeded_users_always_fetchable users k :
  reachable users →
  k ∈ [js "1"; js "2"; js "3"] →
  (∃ r, app_get users k = (users, {| status := 200; body := Data (VObject r) |})
        ∧ get_own (js "id") r = Some (VString k))
  ∧ dom (own (@users_init number)) ⊆ dom (own users).
Proof.
  intros Hreach Hk. split.
  - destruct (seeded_records_invariant users Hreach k Hk) as (r & Hown & Hid).
    exists r. split; [by apply app_get_known | done].
  - clear k Hk. induction Hreach as [|users req _ IH]; [done |].
    etrans; [apply IH | apply handle_keeps_identifiers].
Qed.

Lemma users_set_preserves (P : list (jsstring * @value number) → Prop)
    users userId m :
  (∀ k r, own users !! k = Some r → P r) →
  (∀ r, proto users = Some r → P r) →
  P m →
  (∀ k r, own (users_set users userId m) !! k = Some r → P r)
  ∧ (∀ r, proto (users_set users userId m) = Some r → P r).
Proof.
  intros Hown Hproto Hm.
  assert (Hins : ∀ k r, <[userId := m]> (own users) !! k = Some r → P r).
  { intros k r. rewrite lookup_insert.
    case_decide; [by intros [= <-] | apply Hown]. }
  unfold users_set. destruct (own users !! userId); [done |].
  destruct (inherited_data users userId); [done |].
  case_bool_decide; [|done].
  split; [done |]. cbn [proto]. by intros r [= <-].
Qed.

Lemma merged_validated (user : @jsval number) req_body :
  passes_validation req_body → validated (merged user req_body).
Proof.
  intros (_ & He & Hf & Hl & Ht).
  destruct (merged_fields user req_body) as (Ee & Ef & El & Ep & Eb).
  assert (Hopt : ∀ v : @value number,
             or_else v VNull = VNull ∨ ToBoolean (or_else v VNull) = true).
  { intros v. unfold or_else. destruct (ToBoolean v) eqn:E; auto. }
  unfold validated. split_and!; eauto.
Qed.

Lemma users_init_validated :
  ∀ k r, own (@users_init number) !! k = Some r → validated r.
Proof.
  intros k r Hk. unfold users_init in Hk. cbn [own] in Hk.
  apply elem_of_list_to_map_2 in Hk.
  repeat (apply elem_of_cons in Hk as [Heq | Hk];
          [injection Heq as -> ->; unfold validated;
           split_and!; eexists; split_and!; try reflexivity; auto |]).
  by apply elem_of_nil in Hk.
Qed.

(** X7. Every record of every reachable store, the seeded ones and the
    ones updates have written (the record installed as prototype
    included), holds a truthy email that [emailRegex.test] accepts, a
    truthy firstName and lastName, and a phoneNumber and a bio that are
    [null] or truthy, never the empty text. *)
Theorem stored_records_validated users :
  reachable users →
  (∀ k r, own users !! k = Some r → validated r)
  ∧ (∀ r, proto users = Some r → validated r).
Proof.
  induction 1 as [|users req _ [IHown IHproto]].
  - split; [apply users_init_validated | done].
  - destruct req as [userId | userId req_body]; cbn [handle].
    { by rewrite app_get_store. }
    destruct (app_put_cases users userId req_body)
      as [(_ & -> & _) | (_ & _ & Hvalid & ->)]; [done |].
    apply users_set_preserves; [done | done |]. by apply merged_validated.
Qed.

(** ** Runs of the server *)

Lemma serve_cons users (req : @request number) reqs :
  serve users (req :: reqs) = serve (handle users req).1 reqs.
Proof. reflexivity. Qed.

(** A complete run handles the requests in flight one after the other
    in some order. *)
Lemma runs_are_serial (srv final : @server number) :
  rtc step srv final →
  in_flight final = [] →
  ∃ order, order ≡ₚ in_flight srv ∧ db final = serve (db srv) order.
Proof.
  induction 1 as [srv | srv mid final Hstep _ IH]; intros Hend.
  - exists []. by rewrite Hend.
  - destruct (IH Hend) as (order & Hperm & Hdb).
    destruct Hstep as [srv i req Hreq]. cbn [in_flight db] in Hperm, Hdb.
    exists (req :: order). split.
    + rewrite Hperm. symmetry. by apply delete_Permutation.
    + by rewrite serve_cons.
Qed.

(** X1. Fetches are isolated: in a run where only fetches are in
    flight, [users] never changes and every response sent is the one the
    fetch has on the [users] of the start, whatever the order of
    resumption. *)
Theorem fetches_leave_users (srv final : @server number) :
  rtc step srv final →
  (∀ req, req ∈ in_flight srv → ∃ userId, req = GET userId) →
  db final = db srv
  ∧ ∀ req res, (req, res) ∈ sent final →
      (req, res) ∈ sent srv ∨ res = (handle (db srv) req).2.
Proof.
  induction 1 as [srv | srv mid final Hstep _ IH]; intros Hget.
  - split; [done | auto].
  - destruct Hstep as [srv i req Hreq].
    destruct (Hget req) as [userId ->]; [by eapply list_elem_of_lookup_2 |].
    cbn [handle db in_flight sent] in IH.
    rewrite app_get_store in IH.
    destruct IH as [Hdb Hsent].
    { intros req Hin. apply Hget. by eapply list_elem_of_delete_inv. }
    split; [done |].
    intros req res [Hin | ->]%Hsent; [|by right].
    apply elem_of_app in Hin as [Hin | Hin]; [by left |].
    apply list_elem_of_singleton in Hin as [= -> ->]. by right.
Qed.


(** ** Runs of independent requests *)

Lemma handle_known users (req : @request number) userId :
  known users userId → known (handle users req).1 userId.
Proof.
  unfold known. rewrite <- !elem_of_dom.
  apply handle_keeps_identifiers.
Qed.

Lemma app_put_swap users k1 k2 b1 b2 :
  k1 ≠ k2 → known users k1 → known users k2 →
  (app_put (app_put users k1 b1).1 k2 b2).1
  = (app_put (app_put users k2 b2).1 k1 b1).1.
Proof.
  intros Hne [r1 Hr1] [r2 Hr2].
  assert (Hr2' : own (app_put users k1 b1).1 !! k2 = Some r2)
    by (by rewrite app_put_own_ne).
  assert (Hr1' : own (app_put users k2 b2).1 !! k1 = Some r1)
    by (by rewrite app_put_own_ne).
  destruct (app_put_known_local _ users k2 r2 b2 Hr2' Hr2) as [_ S2].
  destruct (app_put_known_local _ users k1 r1 b1 Hr1' Hr1) as [_ S1].
  destruct S1 as [[S1 S1'] | (m1 & S1 & S1')],
           S2 as [[S2 S2'] | (m2 & S2 & S2')];
    rewrite S1, S2; rewrite ?S1', ?S2'; cbn [own proto]; try done.
  f_equal. by apply insert_insert_ne.
Qed.

Lemma independent_tail users (req : @request number) reqs :
  independent users (req :: reqs) → independent (handle users req).1 reqs.
Proof.
  intros [Hnd Hk]. split.
  - destruct req; cbn [omap list_omap put_target] in Hnd; [done |].
    by apply NoDup_cons in Hnd as [_ ?].
  - intros userId Hin. apply handle_known, Hk.
    destruct req; cbn [omap list_omap put_target]; [done |].
    apply elem_of_cons. by right.
Qed.

Lemma independent_perm users (l1 l2 : list (@request number)) :
  l1 ≡ₚ l2 → independent users l1 → independent users l2.
Proof.
  intros Hp [Hnd Hk].
  assert (Hp' : omap put_target l1 ≡ₚ omap put_target l2) by (by rewrite Hp).
  split; [by rewrite <- Hp' |].
  intros userId Hin. apply Hk. by rewrite Hp'.
Qed.

Lemma handle_swap users (x y : @request number) reqs :
  independent users (x :: y :: reqs) →
  (handle (handle users x).1 y).1 = (handle (handle users y).1 x).1.
Proof.
  intros [Hnd Hk].
  destruct x as [k1 | k1 b1], y as [k2 | k2 b2]; cbn [handle];
    rewrite ?app_get_store; try done.
  cbn [omap list_omap put_target] in Hnd, Hk.
  apply NoDup_cons in Hnd as [Hnin _].
  apply app_put_swap.
  - intros ->. apply Hnin, elem_of_cons. by left.
  - apply Hk, elem_of_cons. by left.
  - apply Hk, elem_of_cons. right. apply elem_of_cons. by left.
Qed.

Lemma serve_perm (l1 l2 : list (@request number)) :
  l1 ≡ₚ l2 →
  ∀ users, independent users l1 → serve users l1 = serve users l2.
Proof.
  induction 1 as [|x l1 l2 _ IH|x y l|l1 l2 l3 Hp1 IH1 Hp2 IH2];
    intros users Hind.
  - done.
  - rewrite !serve_cons. by apply IH, independent_tail.
  - rewrite !serve_cons. by rewrite (handle_swap users y x l).
  - rewrite IH1 by done. apply IH2. by eapply independent_perm.
Qed.

(** X13. When the updates in flight are addressed to pairwise different
    known identifiers (fetches may be in flight with them), the order in
    which the handlers are resumed does not matter: every complete run
    ends with the same [users]. *)
Theorem runs_of_independent_requests_agree (srv final1 final2 : @server number) :
  independent (db srv) (in_flight srv) →
  rtc step srv final1 → in_flight final1 = [] →
  rtc step srv final2 → in_flight final2 = [] →
  db final1 = db final2.
Proof.
  intros Hind Hrun1 Hend1 Hrun2 Hend2.
  destruct (runs_are_serial srv final1 Hrun1 Hend1) as (o1 & Hp1 & ->).
  destruct (runs_are_serial srv final2 Hrun2 Hend2) as (o2 & Hp2 & ->).
  apply serve_perm; [by rewrite Hp1, Hp2 |].
  eapply independent_perm; [symmetry; apply Hp1 | done].
Qed.
(** ** An update addressed to [__proto__] *)

(** X18. On a store whose prototype is still [Object.prototype] and
    that has no key [__proto__], an update addressed to [__proto__] with
    a payload passing validation is answered 200 and creates no record:
    it installs the merged payload as the prototype of [users].  From
    then on the name [email], when it is not a key of [users], is
    fetched with status 200 and the submitted email as body, where
    before the fetch answered 404. *)
Theorem update_proto_key_redirects_lookups users req_body :
  proto users = None →
  own users !! proto_key = None →
  own users !! js "email" = None →
  passes_validation req_body →
  status (app_put users proto_key req_body).2 = 200
  ∧ own (app_put users proto_key req_body).1 = own users
  ∧ proto (app_put users proto_key req_body).1
    = Some (merged ObjectPrototype req_body)
  ∧ status (app_get users (js "email")).2 = 404
  ∧ (app_get (app_put users proto_key req_body).1 (js "email")).2
    = {| status := 200; body := Data (submitted req_body (js "email")) |}.
Proof.
  intros Hproto Hown Hemail Hvalid.
  assert (Hget : users_get users proto_key = ObjectPrototype).
  { unfold users_get, Object_prototype_get.
    by rewrite Hown, Hproto, bool_decide_eq_true_2. }
  assert (Hset : users_set users proto_key (merged ObjectPrototype req_body)
                 = {| own := own users;
                      proto := Some (merged ObjectPrototype req_body) |}).
  { unfold users_set, inherited_data. rewrite Hown, Hproto.
    assert (Hfun : assoc proto_key Object_prototype_functions = None)
      by reflexivity.
    rewrite Hfun. cbn [orb].
    rewrite (bool_decide_eq_false_2 (is_Some None)) by (by intros [? ?]).
    by rewrite bool_decide_eq_true_2. }
  rewrite app_put_valid; [|by rewrite Hget|done].
  cbv zeta. rewrite Hget, Hset. cbn [fst snd own proto status res_json].
  split_and!; try done.
  - unfold app_get, users_get, Object_prototype_get.
    by rewrite Hemail, Hproto.
  - destruct (merged_fields ObjectPrototype req_body) as (Ee & _).
    destruct Hvalid as (_ & He & _).
    unfold app_get, users_get. cbn [own proto]. rewrite Hemail, Ee.
    cbn [truthy]. by rewrite He.
Qed.
End HandlerProperties.

(** * Properties of the email pattern and of [trim] *)

Lemma not_space_at_spec (c : N) :
  not_space_at c = true ↔ is_space c = false ∧ c ≠ at_sign.
Proof.
  unfold not_space_at. rewrite negb_true_iff, orb_false_iff, N.eqb_neq. done.
Qed.

Lemma part_no_at_sign (p : jsstring) :
  Forall (λ c, not_space_at c = true) p → filter (λ c, c = at_sign) p = [].
Proof.
  induction 1 as [|c p Hc _ IH]; [done |].
  apply not_space_at_spec in Hc as [_ Hc].
  by rewrite filter_cons_False.
Qed.

Lemma part_no_space (p : jsstring) :
  Forall (λ c, not_space_at c = true) p → Forall (λ c, is_space c = false) p.
Proof.
  intros Hp. eapply Forall_impl; [done |].
  by intros c [? _]%not_space_at_spec.
Qed.

(** X8. A text that [emailRegex.test] accepts holds no white space,
    exactly one [@] and at least five code units, and after its [@] a
    full stop that is neither the first nor the last code unit of that
    part. *)
Theorem accepted_email_facts (s : jsstring) :
  matches emailRegex s = true →
  Forall (λ c, is_space c = false) s
  ∧ length (filter (λ c, c = at_sign) s) = 1%nat
  ∧ (5 ≤ length s)%nat
  ∧ ∃ local domain tld,
      s = local ++ at_sign :: domain ++ full_stop :: tld
      ∧ local ≠ [] ∧ domain ≠ [] ∧ tld ≠ [].
Proof.
  intros (l & d & t & -> & [Hl Hl'] & [Hd Hd'] & [Ht Ht'])%emailRegex_shape.
  split_and!.
  - rewrite Forall_app, Forall_cons, Forall_app, Forall_cons.
    split_and!; try (by apply part_no_space); done.
  - rewrite filter_app, filter_cons_True by done.
    rewrite filter_app, filter_cons_False by done.
    rewrite !part_no_at_sign by done. done.
  - rewrite length_app. cbn [length]. rewrite length_app. cbn [length].
    destruct l, d, t; try done. cbn [length]. lia.
  - by exists l, d, t.
Qed.

(** [trim] on lists of code units. *)

Lemma trim_start_blank (s : jsstring) :
  trim_start s = [] ↔ Forall (λ c, is_space c = true) s.
Proof.
  induction s as [|c s IH]; cbn [trim_start]; [done |].
  destruct (is_space c) eqn:E.
  - rewrite IH, Forall_cons. tauto.
  - split; [done |]. intros [Hc _]%Forall_cons. congruence.
Qed.

Lemma trim_start_head (s : jsstring) c t :
  trim_start s = c :: t → is_space c = false.
Proof.
  induction s as [|c' s IH]; cbn [trim_start]; [done |].
  destruct (is_space c') eqn:E; [done |]. by intros [= <- _].
Qed.

Lemma trim_start_clean (s : jsstring) :
  Forall (λ c, is_space c = false) s → trim_start s = s.
Proof. destruct 1 as [|c s Hc _]; cbn [trim_start]; [done |]. by rewrite Hc. Qed.

Lemma trim_blank (s : jsstring) : trim s = [] ↔ blank s.
Proof.
  unfold trim, trim_end, blank. rewrite <- trim_start_blank. split.
  - intros Hr. apply (f_equal reverse) in Hr.
    rewrite reverse_involutive in Hr. cbn in Hr.
    apply trim_start_blank in Hr. rewrite Forall_reverse in Hr.
    destruct (trim_start s) as [|c t] eqn:E; [done |].
    apply trim_start_head in E. apply Forall_cons in Hr as [Hc _]. congruence.
  - by intros ->.
Qed.

Lemma trim_clean (s : jsstring) :
  Forall (λ c, is_space c = false) s → trim s = s.
Proof.
  intros Hs. unfold trim, trim_end. rewrite (trim_start_clean s) by done.
  rewrite trim_start_clean by (by rewrite Forall_reverse).
  apply reverse_involutive.
Qed.

Lemma trim_start_decomp (s : jsstring) :
  ∃ pre, s = pre ++ trim_start s ∧ blank pre.
Proof.
  induction s as [|c s (pre & IH & Hpre)]; cbn [trim_start].
  - exists []. split; [done | constructor].
  - destruct (is_space c) eqn:E.
    + exists (c :: pre). split; [by rewrite IH at 1 | by constructor].
    + exists []. split; [done | constructor].
Qed.

(** [trim] removes a blank prefix and a blank suffix, and what it leaves
    neither starts nor ends with white space. *)
Lemma trim_decomp (s : jsstring) :
  ∃ pre post, s = pre ++ trim s ++ post ∧ blank pre ∧ blank post.
Proof.
  destruct (trim_start_decomp s) as (pre & Hs & Hpre).
  destruct (trim_start_decomp (reverse (trim_start s))) as (post & Hr & Hpost).
  exists pre, (reverse post). split_and!; [|done|by apply Forall_reverse].
  rewrite Hs at 1. f_equal. unfold trim, trim_end.
  apply (f_equal reverse) in Hr.
  by rewrite reverse_involutive, reverse_app in Hr.
Qed.

Lemma trim_ends (s : jsstring) c :
  (head (trim s) = Some c ∨ last (trim s) = Some c) → is_space c = false.
Proof.
  unfold trim, trim_end.
  destruct (trim_start (reverse (trim_start s))) as [|c' t] eqn:E;
    [intros [?|?]; done |].
  pose proof (trim_start_head _ _ _ E) as Hc'.
  intros [Hh | Hl].
  - destruct (trim_start_decomp (reverse (trim_start s))) as (pre & Hr & _).
    rewrite E in Hr. apply (f_equal reverse) in Hr.
    rewrite reverse_involutive, reverse_app in Hr.
    destruct (reverse (c' :: t)) as [|c0 t0] eqn:E0; [done |].
    injection Hh as ->. rewrite <- app_comm_cons in Hr.
    destruct (trim_start s) as [|c1 t1] eqn:E1; [done |].
    injection Hr as -> _. by apply trim_start_head in E1.
  - rewrite last_reverse in Hl. by injection Hl as <-.
Qed.

(** * Properties of the callers *)

Section CallerProperties.

Context {number : Type} `{NumberOps number}.

Implicit Types (r props : list (jsstring * @value number)) (userId : jsstring).
Implicit Types (users : @store number) (fn ln em ph bi k : jsstring).
Implicit Types (v : @value number).

Ltac js_neq :=
  let E := fresh in intros E; vm_compute in E; discriminate E.

Lemma ToBoolean_trim (s : jsstring) :
  ToBoolean (@VString number (trim s)) = false ↔ blank s.
Proof.
  cbn [ToBoolean]. rewrite negb_false_iff, bool_decide_eq_true.
  apply trim_blank.
Qed.

Lemma ToBoolean_trim_true (s : jsstring) :
  ¬ blank s → ToBoolean (@VString number (trim s)) = true.
Proof. rewrite <- ToBoolean_trim. by destruct (ToBoolean _). Qed.

(** The update depends on the body only through the five fields it
    reads, the optional ones after [|| null]. *)
Lemma app_put_ext users userId (b b' : @value number) :
  nullish b = nullish b' →
  submitted b (js "email") = submitted b' (js "email") →
  submitted b (js "firstName") = submitted b' (js "firstName") →
  submitted b (js "lastName") = submitted b' (js "lastName") →
  or_else (submitted b (js "phoneNumber")) VNull
  = or_else (submitted b' (js "phoneNumber")) VNull →
  or_else (submitted b (js "bio")) VNull
  = or_else (submitted b' (js "bio")) VNull →
  app_put users userId b = app_put users userId b'.
Proof.
  intros Hn He Hf Hl Hp Hb. rewrite !app_put_unfold. cbv zeta.
  rewrite !merged_unfold. by rewrite Hn, He, Hf, Hl, Hp, Hb.
Qed.

Lemma traditional_sent fn ln em ph bi :
  ¬ blank fn → ¬ blank ln → ¬ blank em →
  TraditionalForm_handleSubmit
    {| f_firstName := VString fn; f_lastName := VString ln;
       f_email := VString em; f_phoneNumber := VString ph;
       f_bio := VString bi |}
  = Normal (Sent (updateData_of fn ln em ph bi)).
Proof.
  intros Hf Hl He. unfold TraditionalForm_handleSubmit. cbv zeta.
  cbn [f_firstName f_lastName f_email f_phoneNumber f_bio call_trim bind].
  rewrite !ToBoolean_trim_true by done. cbn [negb]. reflexivity.
Qed.

Lemma updateData_passes fn ln em ph bi :
  ¬ blank fn → ¬ blank ln → ¬ blank em → email_shape (trim em) →
  passes_validation (updateData_of fn ln em ph bi).
Proof.
  intros Hf Hl He Hshape. unfold passes_validation.
  change (submitted (updateData_of fn ln em ph bi) (js "email"))
    with (@VString number (trim em)).
  change (submitted (updateData_of fn ln em ph bi) (js "firstName"))
    with (@VString number (trim fn)).
  change (submitted (updateData_of fn ln em ph bi) (js "lastName"))
    with (@VString number (trim ln)).
  rewrite !ToBoolean_trim_true by done.
  split_and!; try done.
  unfold RegExp_test. cbn [ToString bind].
  by apply emailRegex_shape in Hshape as ->.
Qed.

(** X14. What [handleSubmit] of [TraditionalForm] does with five typed
    texts.  When first name, last name or email is blank (white space
    only) it sends nothing and reports the required-fields error.
    Otherwise it sends the trimmed texts, and for every identifier that
    passes the lookup the server never answers with its own
    required-fields error: it answers 200 when the trimmed email has the
    shape [local-part@domain.tld], and 400 "Invalid email format",
    without writing, when it has not. *)
Theorem traditional_submit_outcome fn ln em ph bi :
  let st := {| f_firstName := VString fn; f_lastName := VString ln;
               f_email := VString em; f_phoneNumber := VString ph;
               f_bio := VString bi |} in
  (blank fn ∨ blank ln ∨ blank em →
   TraditionalForm_handleSubmit st
   = Normal (NotSent (js "First name, last name, and email are required")))
  ∧ (¬ blank fn → ¬ blank ln → ¬ blank em →
     TraditionalForm_handleSubmit st
     = Normal (Sent (updateData_of fn ln em ph bi))
     ∧ ∀ users userId,
         truthy (users_get users userId) = true →
         (email_shape (trim em) →
          status (app_put users userId (updateData_of fn ln em ph bi)).2 = 200)
         ∧ (¬ email_shape (trim em) →
            app_put users userId (updateData_of fn ln em ph bi)
            = (users,
               {| status := 400;
                  body := Data (VObject
                    [(js "message", VString (js "Invalid email format"))]) |}))).
Proof.
  cbv zeta. split.
  - intros Hblank. unfold TraditionalForm_handleSubmit. cbv zeta.
    cbn [f_firstName f_lastName f_email call_trim bind].
    destruct (ToBoolean (@VString number (trim fn))) eqn:Ef; [|done].
    destruct (ToBoolean (@VString number (trim ln))) eqn:El; [|done].
    destruct (ToBoolean (@VString number (trim em))) eqn:Ee; [|done].
    exfalso. rewrite <- !ToBoolean_trim in Hblank.
    destruct Hblank as [? | [? | ?]]; congruence.
  - intros Hf Hl He. split; [by apply traditional_sent |].
    intros users userId Hu. split.
    + intros Hshape. rewrite app_put_valid;
        [done | done | by apply updateData_passes].
    + intros Hshape%emailRegex_not_shape.
      rewrite app_put_unfold. cbv zeta. rewrite Hu. cbn [negb].
      change (nullish (updateData_of fn ln em ph bi)) with false.
      change (submitted (updateData_of fn ln em ph bi) (js "email"))
        with (@VString number (trim em)).
      change (submitted (updateData_of fn ln em ph bi) (js "firstName"))
        with (@VString number (trim fn)).
      change (submitted (updateData_of fn ln em ph bi) (js "lastName"))
        with (@VString number (trim ln)).
      rewrite !ToBoolean_trim_true by done. cbn [negb orb ToString].
      by rewrite Hshape.
Qed.


(** X15. After [TraditionalForm] has submitted five typed texts that
    pass its check, with an email of the right shape, for a known
    identifier: the stored record holds the trimmed first name, last
    name and email, and for phone number and bio [null] when the typed
    text is blank and the trimmed text otherwise. *)
Theorem traditional_submit_stored users userId r fn ln em ph bi :
  own users !! userId = Some r →
  ¬ blank fn → ¬ blank ln → ¬ blank em →
  email_shape (trim em) →
  ∃ r',
    own (app_put users userId (updateData_of fn ln em ph bi)).1 !! userId
    = Some r'
    ∧ get_own (js "firstName") r' = Some (VString (trim fn))
    ∧ get_own (js "lastName") r' = Some (VString (trim ln))
    ∧ get_own (js "email") r' = Some (VString (trim em))
    ∧ (blank ph → get_own (js "phoneNumber") r' = Some VNull)
    ∧ (¬ blank ph → get_own (js "phoneNumber") r' = Some (VString (trim ph)))
    ∧ (blank bi → get_own (js "bio") r' = Some VNull)
    ∧ (¬ blank bi → get_own (js "bio") r' = Some (VString (trim bi))).
Proof.
  intros Hown Hf Hl He Hshape.
  pose proof (updateData_passes fn ln em ph bi Hf Hl He Hshape) as Hvalid.
  rewrite (app_put_known_valid users userId r) by done. cbn [fst own].
  eexists. split; [apply lookup_insert_eq |].
  destruct (merged_fields (Data (VObject r)) (updateData_of fn ln em ph bi))
    as (Ee & Ef & El & Ep & Eb).
  assert (Hopt : ∀ s : jsstring,
    (blank s → or_else (@VString number (trim s)) VNull = VNull)
    ∧ (¬ blank s → or_else (@VString number (trim s)) VNull = VString (trim s))).
  { intros s. unfold or_else. split.
    - intros Hs%ToBoolean_trim. by rewrite Hs.
    - intros Hs%ToBoolean_trim_true. by rewrite Hs. }
  change (submitted (updateData_of fn ln em ph bi) (js "phoneNumber"))
    with (or_else (@VString number (trim ph)) VNull) in Ep.
  change (submitted (updateData_of fn ln em ph bi) (js "bio"))
    with (or_else (@VString number (trim bi)) VNull) in Eb.
  split_and!; try done.
  - intros Hs. rewrite Ep, (proj1 (Hopt ph) Hs). done.
  - intros Hs. rewrite Ep, (proj2 (Hopt ph) Hs).
    unfold or_else. by rewrite ToBoolean_trim_true.
  - intros Hs. rewrite Eb, (proj1 (Hopt bi) Hs). done.
  - intros Hs. rewrite Eb, (proj2 (Hopt bi) Hs).
    unfold or_else. by rewrite ToBoolean_trim_true.
Qed.

(** ** [ModernForm] *)

Lemma or_else_null_twice (v : @value number) :
  or_else (or_else v VNull) VNull = or_else v VNull.
Proof. unfold or_else. by destruct (ToBoolean v) eqn:E; rewrite ?E. Qed.

Lemma submitted_define_eq k v props :
  submitted (VObject (define k v props)) k = v.
Proof. unfold submitted. cbn [GetV]. by rewrite get_own_define_eq. Qed.

Lemma submitted_define_ne k k' v props :
  k ≠ k' →
  submitted (VObject (define k' v props)) k = submitted (VObject props) k.
Proof.
  intros Hne. unfold submitted. cbn [GetV]. by rewrite get_own_define_ne.
Qed.

Lemma modern_data props :
  wf_object props →
  ModernForm_onSubmit (VObject props)
  = Normal (VObject
      (define (js "bio")
         (or_else (submitted (VObject props) (js "bio")) VNull)
         (define (js "phoneNumber")
            (or_else (submitted (VObject props) (js "phoneNumber")) VNull)
            props))).
Proof.
  intros Hwf. unfold ModernForm_onSubmit, submitted. cbn [GetV bind].
  do 2 f_equal. unfold object_literal.
  cbn [fold_left add_member own_enumerable]. by rewrite copy_append.
Qed.

(** X16. The normalisation of [ModernForm]'s [onSubmit]
    ([phoneNumber || null], [bio || null]) never changes what the server
    does: for every form data, every store and every identifier, the
    update answers and writes the same for the data [onSubmit] builds as
    it would for the form data sent as they are. *)
Theorem modern_normalisation_redundant props :
  wf_object props →
  ∃ data,
    ModernForm_onSubmit (VObject props) = Normal data
    ∧ ∀ users userId,
        app_put users userId data = app_put users userId (VObject props).
Proof.
  intros Hwf. eexists. split; [by apply modern_data |].
  intros users userId.
  apply app_put_ext; [done | ..];
    rewrite ?submitted_define_ne by js_neq;
    rewrite ?submitted_define_eq;
    rewrite ?submitted_define_ne by js_neq;
    rewrite ?submitted_define_eq;
    by rewrite ?or_else_null_twice.
Qed.


(** ** The two forms compared *)

Lemma email_shape_no_space (s : jsstring) :
  email_shape s → Forall (λ c, is_space c = false) s.
Proof.
  intros (l & d & t & -> & [_ Hl] & [_ Hd] & [_ Ht]).
  rewrite Forall_app, Forall_cons, Forall_app, Forall_cons.
  split_and!; try (by apply part_no_space); done.
Qed.

Lemma not_blank_truthy (s : jsstring) :
  ¬ blank s → ToBoolean (@VString number s) = true.
Proof.
  intros Hs. cbn [ToBoolean]. apply negb_true_iff, bool_decide_eq_false.
  intros ->. apply Hs. constructor.
Qed.

(** X17. The two forms disagree on an optional field typed as white
    space only.  With the same non-blank names, the same well-shaped
    email and a phone number that is not empty but blank, submitted for
    a known identifier: [ModernForm] has the blanks stored as the phone
    number, [TraditionalForm] has [null] stored. *)
Theorem forms_differ_on_blank_phone users userId r props fn ln em ph bi :
  own users !! userId = Some r →
  wf_object props →
  get_own (js "firstName") props = Some (VString fn) →
  get_own (js "lastName") props = Some (VString ln) →
  get_own (js "email") props = Some (VString em) →
  get_own (js "phoneNumber") props = Some (VString ph) →
  ¬ blank fn → ¬ blank ln → email_shape em →
  ph ≠ [] → blank ph →
  (∃ data r',
     ModernForm_onSubmit (VObject props) = Normal data
     ∧ own (app_put users userId data).1 !! userId = Some r'
     ∧ get_own (js "phoneNumber") r' = Some (VString ph))
  ∧ (∃ r',
       TraditionalForm_handleSubmit
         {| f_firstName := VString fn; f_lastName := VString ln;
            f_email := VString em; f_phoneNumber := VString ph;
            f_bio := VString bi |}
       = Normal (Sent (updateData_of fn ln em ph bi))
       ∧ own (app_put users userId (updateData_of fn ln em ph bi)).1 !! userId
         = Some r'
       ∧ get_own (js "phoneNumber") r' = Some VNull).
Proof.
  intros Hown Hwf Hfn Hln Hem Hph Hf Hl Hshape Hne Hblank.
  assert (Htrim : trim em = em) by (by apply trim_clean, email_shape_no_space).
  assert (He : ¬ blank em).
  { rewrite <- trim_blank, Htrim. intros ->.
    by destruct Hshape as ([|] & ? & ? & ? & [? _] & _). }
  assert (Hphone : ToBoolean (@VString number ph) = true).
  { cbn [ToBoolean]. by apply negb_true_iff, bool_decide_eq_false. }
  split.
  - pose proof (modern_data props Hwf) as Hm.
    set (data := VObject (define _ _ _)) in Hm.
    exists data, (merged (Data (VObject r)) data). split; [done |].
    assert (Hsub : submitted data (js "email") = VString em
                   ∧ submitted data (js "firstName") = VString fn
                   ∧ submitted data (js "lastName") = VString ln
                   ∧ submitted data (js "phoneNumber") = VString ph).
    { subst data. rewrite !submitted_define_ne by js_neq.
      rewrite submitted_define_eq. unfold submitted. cbn [GetV].
      rewrite Hem, Hfn, Hln, Hph. cbn [default id]. unfold or_else.
      by rewrite Hphone. }
    destruct Hsub as (Ee & Ef & El & Ep).
    assert (Hvalid : passes_validation data).
    { unfold passes_validation. rewrite Ee, Ef, El.
      rewrite !not_blank_truthy by done.
      split_and!; try done. unfold RegExp_test. cbn [ToString bind].
      by apply emailRegex_shape in Hshape as ->. }
    rewrite (app_put_known_valid users userId r) by done. cbn [fst own].
    split; [apply lookup_insert_eq |].
    destruct (merged_fields (Data (VObject r)) data) as (_ & _ & _ & Hp & _).
    rewrite Hp, Ep. unfold or_else. by rewrite Hphone.
  - assert (Hshape' : email_shape (trim em)) by (by rewrite Htrim).
    pose proof (updateData_passes fn ln em ph bi Hf Hl He Hshape') as Hvalid.
    eexists. split; [by apply traditional_sent |].
    rewrite (app_put_known_valid users userId r) by done. cbn [fst own].
    split; [apply lookup_insert_eq |].
    destruct (merged_fields (Data (VObject r)) (updateData_of fn ln em ph bi))
      as (_ & _ & _ & Hp & _).
    rewrite Hp.
    change (submitted (updateData_of fn ln em ph bi) (js "phoneNumber"))
      with (or_else (@VString number (trim ph)) VNull).
    apply ToBoolean_trim in Hblank. unfold or_else. by rewrite Hblank.
Qed.
End CallerProperties.

(** * Instances of the further properties *)

Lemma unresolved_identifier_not_found_witness :
  proto (@users_init safe_integer) = None
  ∧ own (@users_init safe_integer) !! js "4" = None
  ∧ js "4" ≠ proto_key
  ∧ assoc (js "4") Object_prototype_functions = None
  ∧ app_get (@users_init safe_integer) (js "4")
    = (users_init,
       {| status := 404;
          body := Data (VObject
            [(js "message", VString (js "User with ID 4 not found"))]) |})
  ∧ app_put (@users_init safe_integer) (js "4") VUndefined
    = (users_init,
       {| status := 404;
          body := Data (VObject
            [(js "message", VString (js "User with ID 4 not found"))]) |}).
Proof.
  assert (Hk : js "4" ≠ proto_key) by (intros E; vm_compute in E; discriminate E).
  pose proof (unresolved_identifier_not_found (@users_init safe_integer) (js "4")
                eq_refl eq_refl Hk eq_refl) as [Hget Hput].
  exact (conj eq_refl (conj eq_refl (conj Hk (conj eq_refl
          (conj Hget (Hput VUndefined)))))).
Defined.

Lemma update_without_body_faults_witness :
  truthy (users_get (@users_init safe_integer) (js "1")) = true
  ∧ nullish (@VUndefined safe_integer) = true
  ∧ app_put (@users_init safe_integer) (js "1") VUndefined
    = (users_init,
       {| status := 500;
          body := Data (VObject
            [(js "message", VString (js "Internal server error"))]) |}).
Proof.
  exact (conj eq_refl (conj eq_refl
          (update_without_body_faults users_init (js "1") VUndefined
             eq_refl eq_refl))).
Defined.

Lemma update_falsy_required_field_first_witness :
  truthy (users_get (@users_init safe_integer) (js "constructor")) = true
  ∧ js "email" ∈ [js "email"; js "firstName"; js "lastName"]
  ∧ GetV payload_null_email (js "email") = Normal VNull
  ∧ ToBoolean (@VNull safe_integer) = false
  ∧ app_put (@users_init safe_integer) (js "constructor") payload_null_email
    = (users_init,
       {| status := 400;
          body := Data (VObject
            [(js "message",
              VString (js "Email, firstName, and lastName are required fields"))]) |}).
Proof.
  assert (Hf : js "email" ∈ [js "email"; js "firstName"; js "lastName"])
    by (apply elem_of_cons; by left).
  exact (conj eq_refl (conj Hf (conj eq_refl (conj eq_refl
          (update_falsy_required_field_first users_init (js "constructor")
             payload_null_email (js "email") VNull eq_refl Hf eq_refl eq_refl))))).
Defined.

Lemma fetch_after_update_returns_its_response_witness :
  status (app_put (@users_init safe_integer) (js "2") payload_valid).2 = 200
  ∧ app_get (app_put (@users_init safe_integer) (js "2") payload_valid).1 (js "2")
    = ((app_put users_init (js "2") payload_valid).1,
       (app_put users_init (js "2") payload_valid).2).
Proof.
  exact (conj eq_refl
          (fetch_after_update_returns_its_response users_init (js "2")
             payload_valid eq_refl)).
Defined.

Lemma update_idempotent_witness :
  status (app_put (@users_init safe_integer) (js "__proto__") payload_valid).2 = 200
  ∧ app_put (app_put (@users_init safe_integer) (js "__proto__") payload_valid).1
      (js "__proto__") payload_valid
    = app_put users_init (js "__proto__") payload_valid.
Proof.
  exact (conj eq_refl
          (update_idempotent users_init (js "__proto__") payload_valid eq_refl)).
Defined.

Lemma update_leaves_other_records_witness :
  ∃ r,
    js "1" ≠ js "2"
    ∧ own (@users_init safe_integer) !! js "1" = Some r
    ∧ own (app_put users_init (js "2") payload_valid).1 !! js "1" = Some r
    ∧ (app_get (app_put users_init (js "2") payload_valid).1 (js "1")).2
      = {| status := 200; body := Data (VObject r) |}.
Proof.
  assert (Hne : js "1" ≠ js "2") by (intros E; vm_compute in E; discriminate E).
  eexists.
  pose proof (update_leaves_other_records users_init (js "2") payload_valid
                (js "1") _ Hne eq_refl) as [Hown Hget].
  exact (conj Hne (conj eq_refl (conj Hown Hget))).
Defined.

Lemma updates_of_distinct_identifiers_commute_witness :
  js "1" ≠ js "2"
  ∧ known (@users_init safe_integer) (js "1")
  ∧ known (@users_init safe_integer) (js "2")
  ∧ (app_put (app_put users_init (js "1") payload_with_id).1 (js "2")
       payload_bad_email).1
    = (app_put (app_put users_init (js "2") payload_bad_email).1 (js "1")
         payload_with_id).1.
Proof.
  assert (Hne : js "1" ≠ js "2") by (intros E; vm_compute in E; discriminate E).
  assert (H1 : known (@users_init safe_integer) (js "1")) by (eexists; reflexivity).
  assert (H2 : known (@users_init safe_integer) (js "2")) by (eexists; reflexivity).
  exact (conj Hne (conj H1 (conj H2
          (proj1 (updates_of_distinct_identifiers_commute users_init
                    (js "1") (js "2") payload_with_id payload_bad_email
                    Hne H1 H2))))).
Defined.

Lemma reachable_after_slip :
  reachable (handle (@users_init safe_integer) (PUT (js "__proto__") payload_valid)).1.
Proof. apply reachable_handle, reachable_init. Qed.

Lemma seeded_users_always_fetchable_witness :
  reachable (handle (@users_init safe_integer) (PUT (js "__proto__") payload_valid)).1
  ∧ js "3" ∈ [js "1"; js "2"; js "3"]
  ∧ ∃ r,
      app_get (handle (@users_init safe_integer) (PUT (js "__proto__") payload_valid)).1
        (js "3")
      = ((handle (@users_init safe_integer) (PUT (js "__proto__") payload_valid)).1,
         {| status := 200; body := Data (VObject r) |})
      ∧ get_own (js "id") r = Some (VString (js "3")).
Proof.
  assert (Hk : js "3" ∈ [js "1"; js "2"; js "3"])
    by (do 2 (apply elem_of_cons; right); apply elem_of_cons; by left).
  exact (conj reachable_after_slip (conj Hk
          (proj1 (seeded_users_always_fetchable _ (js "3")
                    reachable_after_slip Hk)))).
Defined.

Lemma stored_records_validated_witness :
  reachable (handle (@users_init safe_integer) (PUT (js "__proto__") payload_valid)).1
  ∧ ∃ r,
      proto (handle (@users_init safe_integer) (PUT (js "__proto__") payload_valid)).1
      = Some r
      ∧ validated r.
Proof.
  split; [exact reachable_after_slip |]. eexists. split; [reflexivity |].
  exact (proj2 (stored_records_validated _ reachable_after_slip) _ eq_refl).
Defined.

Lemma fetches_in_flight_run : rtc step fetches_in_flight fetch_resumed.
Proof.
  apply (rtc_l _ _ fetch_resumed);
    [exact (step_resume fetches_in_flight 1 (GET (js "4")) eq_refl) |].
  apply rtc_refl.
Qed.

Lemma fetches_in_flight_only_fetches :
  ∀ req, req ∈ in_flight fetches_in_flight → ∃ userId, req = GET userId.
Proof.
  intros req Hin. cbn [in_flight fetches_in_flight] in Hin.
  rewrite !elem_of_cons, elem_of_nil in Hin.
  destruct Hin as [-> | [-> | []]]; by eexists.
Qed.

Lemma fetches_leave_users_witness :
  rtc step fetches_in_flight fetch_resumed
  ∧ (∀ req, req ∈ in_flight fetches_in_flight → ∃ userId, req = GET userId)
  ∧ db fetch_resumed = db fetches_in_flight.
Proof.
  exact (conj fetches_in_flight_run (conj fetches_in_flight_only_fetches
          (proj1 (fetches_leave_users fetches_in_flight fetch_resumed
                    fetches_in_flight_run fetches_in_flight_only_fetches)))).
Defined.

Lemma accepted_email_facts_witness :
  matches emailRegex (js "jane.smith@example.com") = true
  ∧ Forall (λ c, is_space c = false) (js "jane.smith@example.com")
  ∧ length (filter (λ c, c = at_sign) (js "jane.smith@example.com")) = 1%nat
  ∧ (5 ≤ length (js "jane.smith@example.com"))%nat.
Proof.
  pose proof (accepted_email_facts (js "jane.smith@example.com") eq_refl)
    as (Hspace & Hat & Hlen & _).
  exact (conj eq_refl (conj Hspace (conj Hat Hlen))).
Defined.

Lemma typed_not_blank :
  ¬ blank typed_firstName ∧ ¬ blank typed_lastName ∧ ¬ blank typed_email
  ∧ ¬ blank typed_bio ∧ blank typed_phoneNumber
  ∧ email_shape (trim typed_email).
Proof.
  split_and!;
    try (rewrite <- trim_blank; intros E; vm_compute in E; discriminate E).
  - apply trim_blank. reflexivity.
  - apply emailRegex_shape. reflexivity.
Qed.

Lemma traditional_submit_stored_witness :
  ∃ r r',
    own (@users_init safe_integer) !! js "1" = Some r
    ∧ ¬ blank typed_firstName ∧ ¬ blank typed_lastName ∧ ¬ blank typed_email
    ∧ email_shape (trim typed_email)
    ∧ own (app_put users_init (js "1")
             (updateData_of typed_firstName typed_lastName typed_email
                typed_phoneNumber typed_bio)).1 !! js "1" = Some r'
    ∧ get_own (js "firstName") r' = Some (VString (js "Ada"))
    ∧ get_own (js "email") r' = Some (VString (js "ada@example.org"))
    ∧ get_own (js "phoneNumber") r' = Some VNull
    ∧ get_own (js "bio") r' = Some (VString (js "Countess")).
Proof.
  destruct typed_not_blank as (Hf & Hl & He & Hb & Hp & Hshape).
  eexists.
  destruct (traditional_submit_stored users_init (js "1") _ typed_firstName
              typed_lastName typed_email typed_phoneNumber typed_bio
              eq_refl Hf Hl He Hshape)
    as (r' & Hown & Efn & _ & Eem & Eph & _ & _ & Ebi).
  exists r'.
  exact (conj eq_refl (conj Hf (conj Hl (conj He (conj Hshape (conj Hown
          (conj Efn (conj Eem (conj (Eph Hp) (Ebi Hb)))))))))).
Defined.

Lemma modern_values_wf : wf_object modern_values.
Proof. apply (bool_decide_unpack _). by vm_compute. Qed.

Lemma modern_normalisation_redundant_witness :
  wf_object modern_values
  ∧ ∃ data,
      ModernForm_onSubmit (VObject modern_values) = Normal data
      ∧ app_put users_init (js "1") data
        = app_put users_init (js "1") (VObject modern_values).
Proof.
  split; [exact modern_values_wf |].
  destruct (modern_normalisation_redundant modern_values modern_values_wf)
    as (data & Hdata & Hput).
  exists data. exact (conj Hdata (Hput users_init (js "1"))).
Defined.

Lemma forms_differ_on_blank_phone_witness :
  ∃ r data r_modern r_traditional,
    own (@users_init safe_integer) !! js "1" = Some r
    ∧ wf_object modern_values
    ∧ ¬ blank (js "Ada") ∧ ¬ blank (js "Lovelace")
    ∧ email_shape (js "ada@example.org")
    ∧ js "   " ≠ [] ∧ blank (js "   ")
    ∧ ModernForm_onSubmit (VObject modern_values) = Normal data
    ∧ own (app_put users_init (js "1") data).1 !! js "1" = Some r_modern
    ∧ get_own (js "phoneNumber") r_modern = Some (VString (js "   "))
    ∧ own (app_put users_init (js "1")
             (updateData_of (js "Ada") (js "Lovelace") (js "ada@example.org")
                (js "   ") [])).1 !! js "1" = Some r_traditional
    ∧ get_own (js "phoneNumber") r_traditional = Some VNull.
Proof.
  assert (Hf : ¬ blank (js "Ada"))
    by (rewrite <- trim_blank; intros E; vm_compute in E; discriminate E).
  assert (Hl : ¬ blank (js "Lovelace"))
    by (rewrite <- trim_blank; intros E; vm_compute in E; discriminate E).
  assert (He : email_shape (js "ada@example.org"))
    by (apply emailRegex_shape; reflexivity).
  assert (Hne : js "   " ≠ []) by (intros E; vm_compute in E; discriminate E).
  assert (Hp : blank (js "   ")) by (apply trim_blank; reflexivity).
  eexists.
  destruct (forms_differ_on_blank_phone users_init (js "1") _ modern_values
              (js "Ada") (js "Lovelace") (js "ada@example.org") (js "   ") []
              eq_refl modern_values_wf eq_refl eq_refl eq_refl eq_refl
              Hf Hl He Hne Hp)
    as [(data & rm & Hdata & Hown_m & Hph_m) (rt & _ & Hown_t & Hph_t)].
  exists data, rm, rt.
  exact (conj eq_refl (conj modern_values_wf (conj Hf (conj Hl (conj He
          (conj Hne (conj Hp (conj Hdata (conj Hown_m (conj Hph_m
            (conj Hown_t Hph_t))))))))))).
Defined.

Lemma update_proto_key_redirects_lookups_witness :
  proto (@users_init safe_integer) = None
  ∧ own (@users_init safe_integer) !! proto_key = None
  ∧ own (@users_init safe_integer) !! js "email" = None
  ∧ passes_validation payload_valid
  ∧ status (app_put users_init proto_key payload_valid).2 = 200
  ∧ own (app_put users_init proto_key payload_valid).1 = own users_init
  ∧ (app_get (app_put users_init proto_key payload_valid).1 (js "email")).2
    = {| status := 200;
         body := Data (submitted payload_valid (js "email")) |}.
Proof.
  pose proof (update_proto_key_redirects_lookups users_init payload_valid
                eq_refl eq_refl eq_refl payload_valid_passes)
    as (Hstatus & Hown & _ & _ & Hget).
  exact (conj eq_refl (conj eq_refl (conj eq_refl (conj payload_valid_passes
          (conj Hstatus (conj Hown Hget)))))).
Defined.

Lemma traditional_submit_outcome_witness :
  TraditionalForm_handleSubmit
    {| f_firstName := @VString safe_integer typed_firstName;
       f_lastName := VString typed_phoneNumber;
       f_email := VString typed_email;
       f_phoneNumber := VString typed_phoneNumber;
       f_bio := VString typed_bio |}
  = Normal (NotSent (js "First name, last name, and email are required"))
  ∧ TraditionalForm_handleSubmit
      {| f_firstName := @VString safe_integer typed_firstName;
         f_lastName := VString typed_lastName;
         f_email := VString typed_email;
         f_phoneNumber := VString typed_phoneNumber;
         f_bio := VString typed_bio |}
    = Normal (Sent (updateData_of typed_firstName typed_lastName typed_email
                      typed_phoneNumber typed_bio))
  ∧ status (app_put users_init (js "1")
              (updateData_of typed_firstName typed_lastName typed_email
                 typed_phoneNumber typed_bio)).2 = 200.
Proof.
  destruct typed_not_blank as (Hf & Hl & He & _ & Hp & Hshape).
  pose proof (traditional_submit_outcome (number:=safe_integer) typed_firstName
                typed_phoneNumber typed_email typed_phoneNumber typed_bio)
    as [Hrejected _].
  pose proof (traditional_submit_outcome (number:=safe_integer) typed_firstName
                typed_lastName typed_email typed_phoneNumber typed_bio)
    as [_ Hsent].
  destruct (Hsent Hf Hl He) as [Hdata Hserver].
  exact (conj (Hrejected (or_intror (or_introl Hp)))
          (conj Hdata (proj1 (Hserver users_init (js "1") eq_refl) Hshape))).
Defined.

Lemma updates_in_flight_independent :
  independent (db updates_in_flight) (in_flight updates_in_flight).
Proof.
  split.
  - apply (bool_decide_unpack _). by vm_compute.
  - intros userId Hin. cbn [omap list_omap put_target in_flight
                            updates_in_flight] in Hin.
    rewrite !elem_of_cons, elem_of_nil in Hin.
    destruct Hin as [-> | [-> | []]]; eexists; reflexivity.
Qed.

Lemma updates_in_flight_run_12 :
  rtc step updates_in_flight
    (resume (resume updates_in_flight 0 (PUT (js "1") payload_with_id))
       0 (PUT (js "2") payload_valid)).
Proof.
  eapply rtc_l;
    [exact (step_resume updates_in_flight 0 (PUT (js "1") payload_with_id)
              eq_refl) |].
  eapply rtc_l; [|apply rtc_refl].
  exact (step_resume
           (resume updates_in_flight 0 (PUT (js "1") payload_with_id))
           0 (PUT (js "2") payload_valid) eq_refl).
Qed.

Lemma updates_in_flight_run_21 :
  rtc step updates_in_flight
    (resume (resume updates_in_flight 1 (PUT (js "2") payload_valid))
       0 (PUT (js "1") payload_with_id)).
Proof.
  eapply rtc_l;
    [exact (step_resume updates_in_flight 1 (PUT (js "2") payload_valid)
              eq_refl) |].
  eapply rtc_l; [|apply rtc_refl].
  exact (step_resume
           (resume updates_in_flight 1 (PUT (js "2") payload_valid))
           0 (PUT (js "1") payload_with_id) eq_refl).
Qed.

Lemma runs_of_independent_requests_agree_witness :
  independent (db updates_in_flight) (in_flight updates_in_flight)
  ∧ rtc step updates_in_flight
      (resume (resume updates_in_flight 0 (PUT (js "1") payload_with_id))
         0 (PUT (js "2") payload_valid))
  ∧ rtc step updates_in_flight
      (resume (resume updates_in_flight 1 (PUT (js "2") payload_valid))
         0 (PUT (js "1") payload_with_id))
  ∧ db (resume (resume updates_in_flight 0 (PUT (js "1") payload_with_id))
          0 (PUT (js "2") payload_valid))
    = db (resume (resume updates_in_flight 1 (PUT (js "2") payload_valid))
            0 (PUT (js "1") payload_with_id)).
Proof.
  exact (conj updates_in_flight_independent (conj updates_in_flight_run_12
          (conj updates_in_flight_run_21
            (runs_of_independent_requests_agree updates_in_flight _ _
               updates_in_flight_independent
               updates_in_flight_run_12 eq_refl
               updates_in_flight_run_21 eq_refl)))).
Defined.
